(** * Intentgram: the category store and the URL normaliser of [src/utils.ts]

    A shallow embedding of the non-UI core of the profile organiser: the
    [localStorage]-backed category document, the repository operations over
    it, and the Instagram URL helpers.  Host facilities (strings, JSON,
    [localStorage], [URL], [crypto]) are modelled next to the code that
    calls them. *)

From Stdlib Require Import NArith ZArith String Ascii.
From Stdlib Require Import Floats.SpecFloat.
From stdpp Require Import base numbers option list gmap.

Local Open Scope N_scope.

(** ** JavaScript strings

    A JavaScript string is a finite sequence of UTF-16 code units. *)

Abbreviation jsstring := (list N).

(** An ASCII literal as a JavaScript string. *)
Fixpoint str (s : string) : jsstring :=
  match s with
  | EmptyString => []
  | String a s' => N_of_ascii a :: str s'
  end.
Arguments str _ : simpl never.

(** [WhiteSpace] and [LineTerminator] code points, the set that
    [String.prototype.trim] strips. *)
Definition isWhiteSpace (c : N) : bool :=
  (c =? 0x9) || (c =? 0xA) || (c =? 0xB) || (c =? 0xC) || (c =? 0xD)
  || (c =? 0x20) || (c =? 0xA0) || (c =? 0x1680)
  || ((0x2000 <=? c) && (c <=? 0x200A))
  || (c =? 0x2028) || (c =? 0x2029) || (c =? 0x202F) || (c =? 0x205F)
  || (c =? 0x3000) || (c =? 0xFEFF).

Fixpoint trimStart (s : jsstring) : jsstring :=
  match s with
  | c :: s' => if isWhiteSpace c then trimStart s' else s
  | [] => []
  end.

Definition trimEnd (s : jsstring) : jsstring := rev (trimStart (rev s)).

(** [s.trim()] *)
Definition trim (s : jsstring) : jsstring := trimEnd (trimStart s).

(** A string in a boolean position: only the empty string is falsy. *)
Definition truthy (s : jsstring) : bool :=
  match s with [] => false | _ :: _ => true end.

(** [s.split(sep)] for a separator of one code unit. *)
Fixpoint split (sep : N) (s : jsstring) : list jsstring :=
  match s with
  | [] => [[]]
  | c :: s' =>
      if c =? sep then [] :: split sep s'
      else match split sep s' with
           | seg :: rest => (c :: seg) :: rest
           | [] => [[c]]
           end
  end.

(** A string that is empty or starts with a slash. *)
Definition rooted (path : jsstring) : bool :=
  match path with
  | [] => true
  | c :: _ => c =? 0x2F
  end.

(** [Canonicalize] of a case-insensitive, non-unicode regular expression,
    restricted to what an ASCII pattern can observe: ASCII letters fold to
    upper case, and no code unit above 127 folds onto an ASCII one. *)
Definition canonicalize (c : N) : N :=
  if (0x61 <=? c) && (c <=? 0x7A) then c - 0x20 else c.

(** [s.replace(/^prefix/, '')] for a literal prefix. *)
Definition replace_prefix (prefix s : jsstring) : jsstring :=
  if bool_decide (prefix `prefix_of` s) then drop (length prefix) s else s.

(** [/suffix$/i.test(s)] for a literal suffix. *)
Definition test_suffix_i (suffix s : jsstring) : bool :=
  bool_decide ((canonicalize <$> suffix) `suffix_of` (canonicalize <$> s)).

(** ** Exceptions *)

Inductive Exn :=
| TypeError (message : string)
| Error (message : string)
| SyntaxError
| URIError
| QuotaExceededError.

Inductive Res (A : Type) :=
| Ok (a : A)
| Throw (e : Exn).
Arguments Ok {A} a.
Arguments Throw {A} e.

Definition res_map {A B} (f : A -> B) (r : Res A) : Res B :=
  match r with Ok a => Ok (f a) | Throw e => Throw e end.

Definition res_bind {A B} (r : Res A) (k : A -> Res B) : Res B :=
  match r with Ok a => k a | Throw e => Throw e end.

(** [try { body } catch (error) { handler }] around code without effects. *)
Definition res_catch {A} (body : Res A) (handler : Exn -> Res A) : Res A :=
  match body with Ok a => Ok a | Throw e => handler e end.

Notation "'let?' x ':=' r 'in' k" := (res_bind r (fun x => k))
  (at level 10, x name, r at level 100, k at level 200).

(** The spec's error taxonomy, as the code realises it: validation failures
    are [TypeError]s, a failed save is the [Error] of [writeCategories]. *)
Definition is_ValidationError (e : Exn) : bool :=
  match e with TypeError _ => true | _ => false end.

Definition PersistenceError : Exn :=
  Error "Failed to save categories to localStorage".

(** ** [encodeURIComponent] *)

Definition isAlnum (c : N) : bool :=
  ((0x30 <=? c) && (c <=? 0x39)) || ((0x41 <=? c) && (c <=? 0x5A))
  || ((0x61 <=? c) && (c <=? 0x7A)).

(** The unescaped set of [encodeURIComponent]: alphanumerics and
    [- _ . ! ~ * ' ( )]. *)
Definition uriUnescaped (c : N) : bool :=
  isAlnum c || bool_decide (c ∈ str "-_.!~*'()").

Definition isLeadSurrogate (c : N) : bool := (0xD800 <=? c) && (c <=? 0xDBFF).
Definition isTrailSurrogate (c : N) : bool := (0xDC00 <=? c) && (c <=? 0xDFFF).

Definition surrogate_pair (hi lo : N) : N :=
  (hi - 0xD800) * 0x400 + (lo - 0xDC00) + 0x10000.

Definition utf8 (cp : N) : list N :=
  if cp <? 0x80 then [cp]
  else if cp <? 0x800 then [0xC0 + cp / 0x40; 0x80 + cp mod 0x40]
  else if cp <? 0x10000 then
    [0xE0 + cp / 0x1000; 0x80 + (cp / 0x40) mod 0x40; 0x80 + cp mod 0x40]
  else
    [0xF0 + cp / 0x40000; 0x80 + (cp / 0x1000) mod 0x40;
     0x80 + (cp / 0x40) mod 0x40; 0x80 + cp mod 0x40].

Definition hex_digit (d : N) : N := if d <? 10 then 0x30 + d else 0x37 + d.

Definition percent_octet (b : N) : jsstring :=
  [0x25; hex_digit (b / 16); hex_digit (b mod 16)].

Definition percent_encode (cp : N) : jsstring :=
  concat (percent_octet <$> utf8 cp).

Fixpoint encodeURIComponent (s : jsstring) : Res jsstring :=
  match s with
  | [] => Ok []
  | c :: rest =>
      if uriUnescaped c then res_map (cons c) (encodeURIComponent rest)
      else if isLeadSurrogate c then
        match rest with
        | d :: rest' =>
            if isTrailSurrogate d
            then res_map (app (percent_encode (surrogate_pair c d)))
                         (encodeURIComponent rest')
            else Throw URIError
        | [] => Throw URIError
        end
      else if isTrailSurrogate c then Throw URIError
      else res_map (app (percent_encode c)) (encodeURIComponent rest)
  end.

(** ** JavaScript values

    The values that JSON text can denote, plus [undefined].  Numbers are
    IEEE 754 doubles.  An object lists its own properties in order; an object
    of the program has each key once. *)

#[warnings="-register-all"]
Inductive JSValue :=
| JUndefined
| JNull
| JBool (b : bool)
| JNumber (n : spec_float)
| JString (s : jsstring)
| JArray (elems : list JSValue)
| JObject (props : list (jsstring * JSValue)).

Definition typeof (v : JSValue) : string :=
  match v with
  | JUndefined => "undefined"
  | JNull => "object"
  | JBool _ => "boolean"
  | JNumber _ => "number"
  | JString _ => "string"
  | JArray _ => "object"
  | JObject _ => "object"
  end.

Definition Array_isArray (v : JSValue) : bool :=
  match v with JArray _ => true | _ => false end.

Definition is_null (v : JSValue) : bool :=
  match v with JNull => true | _ => false end.

(** First binding of [k] in a property list. *)
Fixpoint assoc (k : jsstring) (props : list (jsstring * JSValue)) : option JSValue :=
  match props with
  | [] => None
  | (k', v) :: props' => if bool_decide (k' = k) then Some v else assoc k props'
  end.

(** [k in v], for [v] an object and [k] one of the keys the program asks
    about ([id], [name], [profiles]), none of which an array has. *)
Definition has_property (k : jsstring) (v : JSValue) : bool :=
  match v with
  | JObject props => bool_decide (is_Some (assoc k props))
  | _ => false
  end.

(** [v.k] where [v] is known not to be [null] or [undefined], again for the
    keys of the program: primitives and arrays answer [undefined]. *)
Definition get (k : jsstring) (v : JSValue) : JSValue :=
  match v with
  | JObject props => default JUndefined (assoc k props)
  | _ => JUndefined
  end.

(** [v.k] in general: reading a property of [null] or [undefined] throws. *)
Definition GetV (v : JSValue) (k : jsstring) : Res JSValue :=
  match v with
  | JUndefined => Throw (TypeError "Cannot read properties of undefined")
  | JNull => Throw (TypeError "Cannot read properties of null")
  | _ => Ok (get k v)
  end.

(** Assignment through [v.k]: the first binding of [k] is replaced. *)
Fixpoint set_assoc (k : jsstring) (x : JSValue) (props : list (jsstring * JSValue))
  : list (jsstring * JSValue) :=
  match props with
  | [] => []
  | (k', v) :: props' =>
      if bool_decide (k' = k) then (k', x) :: props'
      else (k', v) :: set_assoc k x props'
  end.

Definition set_property (k : jsstring) (x : JSValue) (v : JSValue) : JSValue :=
  match v with
  | JObject props => JObject (set_assoc k x props)
  | _ => v
  end.

(** [v === s] against a string operand. *)
Definition strict_equals_string (v : JSValue) (s : jsstring) : bool :=
  match v with
  | JString s' => bool_decide (s' = s)
  | _ => false
  end.

(** ** JSON

    [serialize v] is the value that [JSON.parse (JSON.stringify v)] denotes
    where [v] sits as a property value or array element; [None] means that
    [JSON.stringify] leaves the property out.  Non-finite numbers are written
    as [null], negative zero as [0], [undefined] array elements as [null];
    every finite number is read back as itself. *)
Fixpoint serialize (v : JSValue) : option JSValue :=
  match v with
  | JUndefined => None
  | JNull => Some JNull
  | JBool b => Some (JBool b)
  | JNumber n =>
      Some match n with
           | S754_finite _ _ _ => JNumber n
           | S754_zero _ => JNumber (S754_zero false)
           | S754_infinity _ => JNull
           | S754_nan => JNull
           end
  | JString s => Some (JString s)
  | JArray elems =>
      Some (JArray (map (fun x => default JNull (serialize x)) elems))
  | JObject props =>
      Some (JObject
              ((fix go (ps : list (jsstring * JSValue)) :=
                  match ps with
                  | [] => []
                  | (k, x) :: ps' =>
                      match serialize x with
                      | Some x' => (k, x') :: go ps'
                      | None => go ps'
                      end
                  end) props))
  end.

(** [serialize] on the property list of an object. *)
Fixpoint serialize_props (ps : list (jsstring * JSValue)) : list (jsstring * JSValue) :=
  match ps with
  | [] => []
  | (k, x) :: ps' =>
      match serialize x with
      | Some x' => (k, x') :: serialize_props ps'
      | None => serialize_props ps'
      end
  end.

(** The text held under a storage key, up to what the program can tell about
    it: whether it is empty, and what [JSON.parse] makes of it. *)
Inductive StoredText :=
| EmptyText
| MalformedText
| JSONText (v : JSValue).

Definition text_truthy (t : StoredText) : bool :=
  match t with EmptyText => false | _ => true end.

Definition JSON_parse (t : StoredText) : Res JSValue :=
  match t with
  | JSONText v => Ok v
  | EmptyText => Throw SyntaxError
  | MalformedText => Throw SyntaxError
  end.

(** [JSON.stringify v], then coerced to the string that [setItem] stores:
    for [undefined] that is the text [undefined], which is not JSON. *)
Definition JSON_stringify (v : JSValue) : StoredText :=
  match serialize v with
  | Some v' => JSONText v'
  | None => MalformedText
  end.

(** ** The host: storage, page location, identifiers, heap *)

(** A parsed [URL] object. *)
Record URL := {
  protocol : jsstring;
  hostname : jsstring;
  port : jsstring;
  pathname : jsstring;
  search : jsstring;
  hash : jsstring
}.

(** What [createCategory] allocates and reads: array objects, told apart
    from every other kind of object. *)
Inductive HeapObject :=
| HArray (elems : list JSValue)
| HOther.

Abbreviation Ref := positive.

Record World := {
  (** [localStorage], one text per key *)
  localStorage : gmap jsstring StoredText;
  (** every call of [localStorage.setItem] made so far, oldest first *)
  setItem_calls : list (jsstring * StoredText);
  (** [new URLSearchParams(window.location.search).get('category')] *)
  query_category : option jsstring;
  (** how many identifiers [crypto.randomUUID] has handed out *)
  uuid_count : nat;
  (** array objects reachable by reference *)
  heap : gmap Ref HeapObject
}.

(** What the browser decides and the program cannot: how a URL parses, when
    a storage write is refused, which identifiers are drawn. *)
Class Platform := {
  (** [new URL(url)]; an invalid URL throws a [TypeError] *)
  URL_new : jsstring -> Res URL;
  (** whether [localStorage.setItem key text] goes through on the given
      storage content; otherwise it throws [QuotaExceededError] *)
  setItem_ok : gmap jsstring StoredText -> jsstring -> StoredText -> bool;
  (** the [n]-th identifier of [crypto.randomUUID] *)
  randomUUID : nat -> jsstring
}.

(** Computations over the world that may throw. *)
Definition M (A : Type) : Type := World -> Res A * World.

Definition ret {A} (a : A) : M A := fun w => (Ok a, w).

Definition throw {A} (e : Exn) : M A := fun w => (Throw e, w).

Definition bind {A B} (m : M A) (k : A -> M B) : M B :=
  fun w =>
    match m w with
    | (Ok a, w') => k a w'
    | (Throw e, w') => (Throw e, w')
    end.

Definition lift {A} (r : Res A) : M A := fun w => (r, w).

(** [try { body } catch (error) { handler }] *)
Definition try_catch {A} (body : M A) (handler : Exn -> M A) : M A :=
  fun w =>
    match body w with
    | (Ok a, w') => (Ok a, w')
    | (Throw e, w') => handler e w'
    end.

Notation "'let*' x ':=' m 'in' k" := (bind m (fun x => k))
  (at level 10, x name, m at level 100, k at level 200).

(** Updates of one component of the world. *)
Definition with_localStorage (store : gmap jsstring StoredText) (w : World) : World :=
  {| localStorage := store;
     setItem_calls := setItem_calls w;
     query_category := query_category w;
     uuid_count := uuid_count w;
     heap := heap w |}.

Definition with_setItem_calls (calls : list (jsstring * StoredText)) (w : World) : World :=
  {| localStorage := localStorage w;
     setItem_calls := calls;
     query_category := query_category w;
     uuid_count := uuid_count w;
     heap := heap w |}.

Definition with_uuid_count (n : nat) (w : World) : World :=
  {| localStorage := localStorage w;
     setItem_calls := setItem_calls w;
     query_category := query_category w;
     uuid_count := n;
     heap := heap w |}.

Definition with_heap (h : gmap Ref HeapObject) (w : World) : World :=
  {| localStorage := localStorage w;
     setItem_calls := setItem_calls w;
     query_category := query_category w;
     uuid_count := uuid_count w;
     heap := h |}.

(** The world once [setItem key text] has been called, refused or not. *)
Definition called (key : jsstring) (text : StoredText) (w : World) : World :=
  with_setItem_calls (setItem_calls w ++ [(key, text)]) w.

(** The world once [setItem key text] has been called and has gone through. *)
Definition written (key : jsstring) (text : StoredText) (w : World) : World :=
  with_localStorage (<[key := text]> (localStorage w)) (called key text w).

Section Host.
Context `{Platform}.

Definition localStorage_getItem (key : jsstring) : M (option StoredText) :=
  fun w => (Ok (localStorage w !! key), w).

Definition localStorage_setItem (key : jsstring) (text : StoredText) : M unit :=
  fun w =>
    if setItem_ok (localStorage w) key text
    then (Ok tt, written key text w)
    else (Throw QuotaExceededError, called key text w).

Definition URLSearchParams_get_category : M (option jsstring) :=
  fun w => (Ok (query_category w), w).

Definition crypto_randomUUID : M jsstring :=
  fun w => (Ok (randomUUID (uuid_count w)), with_uuid_count (S (uuid_count w)) w).

(** A new object gets a reference that no object has yet. *)
Definition alloc (o : HeapObject) : M Ref :=
  fun w =>
    let r := fresh (dom (heap w)) in
    (Ok r, with_heap (<[r := o]> (heap w)) w).

Definition deref (r : Ref) : M (option HeapObject) :=
  fun w => (Ok (heap w !! r), w).
End Host.

(** ** [Array.prototype] helpers with a callback that may throw *)

Fixpoint findIndex {A} (pred : A -> Res bool) (l : list A) : Res (option nat) :=
  match l with
  | [] => Ok None
  | x :: l' =>
      match pred x with
      | Throw e => Throw e
      | Ok true => Ok (Some 0%nat)
      | Ok false => res_map (option_map S) (findIndex pred l')
      end
  end.

Fixpoint filter_res {A} (pred : A -> Res bool) (l : list A) : Res (list A) :=
  match l with
  | [] => Ok []
  | x :: l' =>
      let? keep := pred x in
      let? rest := filter_res pred l' in
      Ok (if keep then x :: rest else rest)
  end.

Fixpoint find {A} (pred : A -> Res bool) (l : list A) : Res (option A) :=
  match l with
  | [] => Ok None
  | x :: l' =>
      match pred x with
      | Throw e => Throw e
      | Ok true => Ok (Some x)
      | Ok false => find pred l'
      end
  end.

(** ** Promises, the network and file reading

    An [async] function is followed up to the point where its promise
    settles, or where it waits on a promise that never does. *)

Inductive Promise (A : Type) :=
| Fulfilled (a : A)
| Rejected (e : Exn)
| Pending.
Arguments Fulfilled {A} a.
Arguments Rejected {A} e.
Arguments Pending {A}.

(** [await p] in the body of an [async] function, followed by the rest of
    the body: a fulfilled promise hands over its value, a rejected one
    throws, a pending one leaves the body suspended. *)
Definition await_then {A B} (p : Promise A) (k : A -> Promise B) : Promise B :=
  match p with
  | Fulfilled a => k a
  | Rejected e => Rejected e
  | Pending => Pending
  end.

(** [try { body } catch (error) { handler }] in an [async] function. *)
Definition async_catch {A} (body : Promise A) (handler : Exn -> Promise A) : Promise A :=
  match body with
  | Rejected e => handler e
  | _ => body
  end.

Notation "'let!' x ':=' p 'in' k" := (await_then p (fun x => k))
  (at level 10, x name, p at level 100, k at level 200).

(** What a [FileReader] does after [readAsDataURL]: it fires [load] with a
    result that is a string or is not, or fires [error], or fires neither
    (the read was aborted). *)
Inductive ReaderEvent :=
| onload (result : option jsstring)
| onerror
| no_event.

(** A blob or file, up to what reading it as a data URL gives. *)
Record Blob := { readAsDataURL : ReaderEvent }.

Record Response := {
  ok : bool;
  status : N;
  json : Promise JSValue;
  blob : Promise Blob
}.

Class Network := {
  (** [fetch(url)] *)
  fetch : jsstring -> Promise Response
}.

(** A value in a boolean position. *)
Definition ToBoolean (v : JSValue) : bool :=
  match v with
  | JUndefined => false
  | JNull => false
  | JBool b => b
  | JNumber n =>
      match n with
      | S754_zero _ => false
      | S754_nan => false
      | _ => true
      end
  | JString s => truthy s
  | JArray _ => true
  | JObject _ => true
  end.

(** [a ?? b] *)
Definition nullish_coalesce (a b : JSValue) : JSValue :=
  match a with
  | JUndefined => b
  | JNull => b
  | _ => a
  end.

(** ** [src/utils.ts] *)

Module Utils.

Record NormalizedInstagramUrl := {
  username : jsstring;
  url : jsstring
}.

Record InstagramDeepLink := {
  appUrl : jsstring;
  webUrl : jsstring
}.

(** A [Category] as [createCategory] builds it: [profiles] refers to an
    array object. *)
Record Category := {
  cat_id : jsstring;
  cat_name : jsstring;
  cat_profiles : Ref
}.

Definition STORAGE_KEY : jsstring := str "profiles.v2".

(** The type guard that [readCategories] filters with.  [&&] evaluates left
    to right, so [in] and the property reads only meet non-null objects. *)
Definition is_Category (item : JSValue) : bool :=
  String.eqb (typeof item) "object"
  && negb (is_null item)
  && has_property (str "id") item
  && has_property (str "name") item
  && has_property (str "profiles") item
  && String.eqb (typeof (get (str "id") item)) "string"
  && String.eqb (typeof (get (str "name") item)) "string"
  && Array_isArray (get (str "profiles") item).

Definition array_elements (v : JSValue) : list JSValue :=
  match v with JArray elems => elems | _ => [] end.

(** The callbacks [c => c.id === categoryId] and [p => p.id === profileId]. *)
Definition id_equals (wanted : jsstring) (x : JSValue) : Res bool :=
  let? i := GetV x (str "id") in Ok (strict_equals_string i wanted).

(** [categories[i].profiles], which must be an array for [push],
    [findIndex] and [splice] to be callable. *)
Definition profiles_at (i : nat) (categories : list JSValue) : Res (list JSValue) :=
  match categories !! i with
  | None => Throw (TypeError "Cannot read properties of undefined")
  | Some c =>
      let? ps := GetV c (str "profiles") in
      match ps with
      | JArray elems => Ok elems
      | _ => Throw (TypeError "not a function")
      end
  end.

(** The document after the array [categories[i].profiles] has been mutated
    into [elems]. *)
Definition with_profiles_at (i : nat) (elems : list JSValue) (categories : list JSValue)
  : list JSValue :=
  alter (set_property (str "profiles") (JArray elems)) i categories.

Section Utils.
Context `{Platform}.

Definition readCategories : M (list JSValue) :=
  try_catch
    (let* raw := localStorage_getItem STORAGE_KEY in
     match raw with
     | None => ret []
     | Some raw =>
         if negb (text_truthy raw) then ret []
         else
           let* parsed := lift (JSON_parse raw) in
           if negb (Array_isArray parsed) then ret []
           else ret (List.filter is_Category (array_elements parsed))
     end)
    (fun error => ret []).

Definition writeCategories (categories : JSValue) : M unit :=
  if negb (Array_isArray categories)
  then throw (TypeError "Categories must be an array")
  else
    try_catch
      (localStorage_setItem STORAGE_KEY (JSON_stringify categories))
      (fun error => throw (Error "Failed to save categories to localStorage")).

Definition getCurrentCategory : M (option JSValue) :=
  let* categoryId := URLSearchParams_get_category in
  match categoryId with
  | None => ret None
  | Some categoryId =>
      if negb (truthy categoryId) then ret None
      else
        let* categories := readCategories in
        lift (find (id_equals categoryId) categories)
  end.

Definition normalizeInstagramUrl (url : JSValue)
  : Res (option NormalizedInstagramUrl) :=
  match url with
  | JString url =>
      if negb (truthy (trim url)) then Ok None
      else
        res_catch
          (let? u := URL_new url in
           let hostname := replace_prefix (str "www.") (hostname u) in
           if negb (test_suffix_i (str "instagram.com") hostname) then Ok None
           else
             let parts := List.filter truthy (split 0x2F (pathname u)) in
             match parts with
             | [] => Ok None
             | username :: _ =>
                 if negb (truthy username) || (length username =? 0)%nat
                 then Ok None
                 else Ok (Some {| username := username;
                                  url := str "https://instagram.com/" ++ username |})
             end)
          (fun error => Ok None)
  | _ => Ok None
  end.

Definition instaDeepLink (username : JSValue) : Res InstagramDeepLink :=
  match username with
  | JString username =>
      if negb (truthy (trim username))
      then Throw (TypeError "Username must be a non-empty string")
      else
        let? encodedUsername := encodeURIComponent username in
        Ok {| appUrl := str "instagram://user?username=" ++ encodedUsername;
              webUrl := str "https://instagram.com/" ++ encodedUsername |}
  | _ => Throw (TypeError "Username must be a non-empty string")
  end.

(** [profiles] is [None] when the argument is left out, and the default
    [[]] is allocated for it. *)
Definition createCategory (name : JSValue) (profiles : option Ref) : M Category :=
  let* profiles :=
    match profiles with
    | Some r => ret r
    | None => alloc (HArray [])
    end in
  match name with
  | JString name =>
      if negb (truthy (trim name))
      then throw (TypeError "Name must be a non-empty string")
      else
        let* target := deref profiles in
        match target with
        | Some (HArray elems) =>
            let* id := crypto_randomUUID in
            let* copy := alloc (HArray elems) in
            ret {| cat_id := id; cat_name := trim name; cat_profiles := copy |}
        | _ => throw (TypeError "Profiles must be an array")
        end
  | _ => throw (TypeError "Name must be a non-empty string")
  end.

Definition findCategoryById (categoryId : JSValue) : M (option JSValue) :=
  match categoryId with
  | JString categoryId =>
      if negb (truthy (trim categoryId)) then ret None
      else
        let* categories := readCategories in
        lift (find (id_equals categoryId) categories)
  | _ => ret None
  end.

Definition addProfileToCategory (categoryId : jsstring) (profile : JSValue) : M bool :=
  let* categories := readCategories in
  let* categoryIndex := lift (findIndex (id_equals categoryId) categories) in
  match categoryIndex with
  | None => ret false
  | Some categoryIndex =>
      let* profiles := lift (profiles_at categoryIndex categories) in
      let categories :=
        with_profiles_at categoryIndex (profiles ++ [profile]) categories in
      let* _ := writeCategories (JArray categories) in
      ret true
  end.

Definition removeProfileFromCategory (categoryId profileId : jsstring) : M bool :=
  let* categories := readCategories in
  let* categoryIndex := lift (findIndex (id_equals categoryId) categories) in
  match categoryIndex with
  | None => ret false
  | Some categoryIndex =>
      let* profiles := lift (profiles_at categoryIndex categories) in
      let* profileIndex := lift (findIndex (id_equals profileId) profiles) in
      match profileIndex with
      | None => ret false
      | Some profileIndex =>
          let categories :=
            with_profiles_at categoryIndex (delete profileIndex profiles) categories in
          let* _ := writeCategories (JArray categories) in
          ret true
      end
  end.

Definition deleteCategory (categoryId : jsstring) : M bool :=
  let* categories := readCategories in
  let initialLength := length categories in
  let* filtered :=
    lift (filter_res (fun c => res_map negb (id_equals categoryId c)) categories) in
  if (length filtered =? initialLength)%nat then ret false
  else
    let* _ := writeCategories (JArray filtered) in
    ret true.

Record InstagramProfileData := {
  profile_name : JSValue;
  profile_username : JSValue;
  profile_imageUrl : JSValue
}.

(** The promise that wraps a [FileReader]: [onload] resolves it with a
    string result and rejects it otherwise, [onerror] rejects it. *)
Definition read_as_data_url (source : Blob) (not_a_string on_error : string)
  : Promise jsstring :=
  match readAsDataURL source with
  | onload (Some result) => Fulfilled result
  | onload None => Rejected (Error not_a_string)
  | onerror => Rejected (Error on_error)
  | no_event => Pending
  end.

(** The type guard of [fetchInstagramProfile] on the response body. *)
Definition has_graphql_user (data : JSValue) : bool :=
  String.eqb (typeof data) "object"
  && negb (is_null data)
  && has_property (str "graphql") data
  && String.eqb (typeof (get (str "graphql") data)) "object"
  && negb (is_null (get (str "graphql") data))
  && has_property (str "user") (get (str "graphql") data)
  && String.eqb (typeof (get (str "user") (get (str "graphql") data))) "object"
  && negb (is_null (get (str "user") (get (str "graphql") data))).

Definition createProfile (name username : JSValue) (imageDataUrl : option jsstring)
  : M JSValue :=
  match name with
  | JString name =>
      if negb (truthy (trim name))
      then throw (TypeError "Name must be a non-empty string")
      else
        match username with
        | JString username =>
            if negb (truthy (trim username))
            then throw (TypeError "Username must be a non-empty string")
            else
              let* id := crypto_randomUUID in
              ret (JObject
                     [(str "id", JString id);
                      (str "name", JString (trim name));
                      (str "username", JString (trim username));
                      (str "imageDataUrl",
                       match imageDataUrl with
                       | Some imageDataUrl =>
                           if truthy (trim imageDataUrl)
                           then JString (trim imageDataUrl)
                           else JUndefined
                       | None => JUndefined
                       end)])
        | _ => throw (TypeError "Username must be a non-empty string")
        end
  | _ => throw (TypeError "Name must be a non-empty string")
  end.

Context `{Network}.

Definition fetchInstagramProfile (username : JSValue) : Promise InstagramProfileData :=
  match username with
  | JString username =>
      if negb (truthy (trim username))
      then Rejected (TypeError "Username must be a non-empty string")
      else
        async_catch
          (let! response :=
             fetch (str "https://www.instagram.com/" ++ username ++ str "/?__a=1&__d=dis") in
           (* the message also carries [status response]; it is caught below *)
           if negb (ok response) then Rejected (Error "HTTP error!")
           else
             let! data := json response in
             if has_graphql_user data then
               let user := get (str "user") (get (str "graphql") data) in
               if negb (ToBoolean (get (str "username") user))
               then Rejected (Error "Invalid profile data: missing username")
               else
                 Fulfilled
                   {| profile_name :=
                        nullish_coalesce (get (str "full_name") user) (JString username);
                      profile_username := get (str "username") user;
                      profile_imageUrl :=
                        nullish_coalesce
                          (nullish_coalesce (get (str "profile_pic_url_hd") user)
                                            (get (str "profile_pic_url") user))
                          JNull |}
             else Rejected (Error "Invalid profile data structure"))
          (fun error =>
             Fulfilled {| profile_name := JString username;
                          profile_username := JString username;
                          profile_imageUrl := JNull |})
  | _ => Rejected (TypeError "Username must be a non-empty string")
  end.

(** The result is [None] for [null].  The promise around the reader is
    returned from inside [try] without an [await], so the function's promise
    takes on its fate and [catch] never sees its rejection. *)
Definition fetchImageAsDataUrl (imageUrl : JSValue) : Promise (option jsstring) :=
  match imageUrl with
  | JString imageUrl =>
      if negb (truthy (trim imageUrl))
      then Rejected (TypeError "Image URL must be a non-empty string")
      else
        match
          (let! response := fetch imageUrl in
           if negb (ok response) then Rejected (Error "HTTP error!")
           else
             let! blob := blob response in
             Fulfilled
               (read_as_data_url blob "Failed to convert blob to data URL"
                  "Error reading blob"))
        with
        | Fulfilled reading => let! result := reading in Fulfilled (Some result)
        | Rejected error => Fulfilled None
        | Pending => Pending
        end
  | _ => Rejected (TypeError "Image URL must be a non-empty string")
  end.
End Utils.

End Utils.

(** ** [src/app.js]

    The page script carries its own copies of two of the functions. *)

Module App.
Section App.
Context `{Platform}.

Definition STORAGE_KEY : jsstring := str "profiles.v2".

Definition readCategories : M (list JSValue) :=
  try_catch
    (let* raw := localStorage_getItem STORAGE_KEY in
     match raw with
     | None => ret []
     | Some raw =>
         if negb (text_truthy raw) then ret []
         else
           let* parsed := lift (JSON_parse raw) in
           if negb (Array_isArray parsed) then ret []
           else ret (Utils.array_elements parsed)
     end)
    (fun error => ret []).

Definition normalizeInstagramUrl (url : jsstring)
  : Res (option Utils.NormalizedInstagramUrl) :=
  res_catch
    (let? u := URL_new url in
     if negb (test_suffix_i (str "instagram.com")
                (replace_prefix (str "www.") (hostname u)))
     then Ok None
     else
       let parts := List.filter truthy (split 0x2F (pathname u)) in
       match parts with
       | [] => Ok None
       | username :: _ =>
           if negb (truthy username) then Ok None
           else Ok (Some {| Utils.username := username;
                            Utils.url := str "https://instagram.com/" ++ username |})
       end)
    (fun error => Ok None).

(** [writeCategories] without a check and without a [try]. *)
Definition writeCategories (categories : JSValue) : M unit :=
  localStorage_setItem STORAGE_KEY (JSON_stringify categories).

Definition getCurrentCategory : M (option JSValue) :=
  let* categoryId := URLSearchParams_get_category in
  match categoryId with
  | None => ret None
  | Some categoryId =>
      if negb (truthy categoryId) then ret None
      else
        let* categories := readCategories in
        lift (find (Utils.id_equals categoryId) categories)
  end.

Definition instaDeepLink (username : jsstring) : Res Utils.InstagramDeepLink :=
  let? appName := encodeURIComponent username in
  let? webName := encodeURIComponent username in
  Ok {| Utils.appUrl := str "instagram://user?username=" ++ appName;
        Utils.webUrl := str "https://instagram.com/" ++ webName |}.
End App.
End App.

(** ** A sample host

    A browser cut down to what the examples need.  Its URL parser knows the
    plain shape [http(s)://host/path?query#fragment], with a host of
    non-empty labels of letters separated by dots, a path that is empty or
    starts with a slash, and a path, query and fragment of unreserved
    characters and no dot segments, on which it agrees with [new URL];
    anything else it reports as invalid. *)

Module Sample.

Fixpoint span (p : N -> bool) (s : jsstring) : jsstring * jsstring :=
  match s with
  | c :: s' => if p c then let (a, b) := span p s' in (c :: a, b) else ([], s)
  | [] => ([], [])
  end.

Definition isAlpha (c : N) : bool :=
  ((0x41 <=? c) && (c <=? 0x5A)) || ((0x61 <=? c) && (c <=? 0x7A)).

Definition toLower (c : N) : N :=
  if (0x41 <=? c) && (c <=? 0x5A) then c + 0x20 else c.

Definition isHostChar (c : N) : bool := isAlpha c || (c =? 0x2E).

Definition isPathChar (c : N) : bool :=
  isAlnum c || bool_decide (c ∈ str "-._~/").

Definition isQueryChar (c : N) : bool :=
  isAlnum c || bool_decide (c ∈ str "-._~/=&").

Definition strip_prefix (prefix s : jsstring) : option jsstring :=
  if bool_decide (prefix `prefix_of` s) then Some (drop (length prefix) s) else None.

Definition has_dot_segment (path : jsstring) : bool :=
  existsb (fun seg => bool_decide (seg = str ".") || bool_decide (seg = str ".."))
          (split 0x2F path).

(** A host whose labels are all non-empty. *)
Definition labelled (host : jsstring) : bool := forallb truthy (split 0x2E host).

Definition simple_URL (s : jsstring) : Res URL :=
  let invalid := Throw (TypeError "Invalid URL") in
  let (scheme, rest) := span isAlpha s in
  let scheme := toLower <$> scheme in
  if negb (bool_decide (scheme = str "http") || bool_decide (scheme = str "https"))
  then invalid
  else
    match strip_prefix (str "://") rest with
    | None => invalid
    | Some rest =>
        let (host, rest) := span isHostChar rest in
        let (path, rest) := span isPathChar rest in
        let (query, rest) :=
          match rest with
          | 0x3F :: r => let (q, r') := span isQueryChar r in
                         (if truthy q then 0x3F :: q else [], r')
          | _ => ([], rest)
          end in
        let (fragment, rest) :=
          match rest with
          | 0x23 :: r => let (f, r') := span isQueryChar r in
                         (if truthy f then 0x23 :: f else [], r')
          | _ => ([], rest)
          end in
        if negb (labelled host) || negb (rooted path) || truthy rest
           || has_dot_segment path
        then invalid
        else Ok {| protocol := scheme ++ str ":";
                   hostname := toLower <$> host;
                   port := [];
                   pathname := if truthy path then path else str "/";
                   search := query;
                   hash := fragment |}
    end.

(** Identifiers that never repeat. *)
Definition sample_uuid (n : nat) : jsstring := str "uuid-" ++ replicate n 0x78.

(** A browser whose storage takes every write. *)
Definition roomy : Platform := {|
  URL_new := simple_URL;
  setItem_ok := fun _ _ _ => true;
  randomUUID := sample_uuid
|}.

(** A browser whose storage refuses every write (quota used up, or storage
    switched off). *)
Definition full : Platform := {|
  URL_new := simple_URL;
  setItem_ok := fun _ _ _ => false;
  randomUUID := sample_uuid
|}.

Definition world_with (store : gmap jsstring StoredText) : World := {|
  localStorage := store;
  setItem_calls := [];
  query_category := None;
  uuid_count := 0;
  heap := ∅
|}.

(** A [Profile] object as [createProfile] lays it out. *)
Definition profile_object (id name username : jsstring) : JSValue :=
  JObject [(str "id", JString id); (str "name", JString name);
           (str "username", JString username); (str "imageDataUrl", JUndefined)].

Definition category_object (id name : jsstring) (profiles : list JSValue) : JSValue :=
  JObject [(str "id", JString id); (str "name", JString name);
           (str "profiles", JArray profiles)].

(** A profile as it comes back from storage. *)
Definition stored_profile (id name username : jsstring) : JSValue :=
  JObject [(str "id", JString id); (str "name", JString name);
           (str "username", JString username)].

(** The number that [JSON.parse] makes of the literal [1e999]. *)
Definition infinity : JSValue := JNumber (S754_infinity false).

(** A world whose slot holds the given array as JSON text. *)
Definition holding (items : list JSValue) : World :=
  world_with {[ Utils.STORAGE_KEY := JSONText (JArray items) ]}.

Definition jane : JSValue := profile_object (str "p1") (str "Jane") (str "jdoe").

Definition friends : JSValue := category_object (str "a") (str "Friends") [].

(** [[{"id":"a","name":"Friends","profiles":[]}]] *)
Definition one_category : World := holding [friends].

(** [[{"id":"a","name":"Friends","profiles":[]}, "junk"]] *)
Definition mixed : World := holding [friends; JString (str "junk")].

(** [[{"id":"a","name":"Friends","profiles":[1e999]}]] *)
Definition overflowing : World :=
  holding [category_object (str "a") (str "Friends") [infinity]].

(** [[{"id":"a",...,"profiles":[]}, {"id":"b",...,"profiles":[1e999]}]] *)
Definition two_categories : World :=
  holding [friends; category_object (str "b") (str "Work") [infinity]].

(** Two well-formed categories, the first with two profiles. *)
Definition tidy : World :=
  holding [category_object (str "a") (str "Friends")
             [stored_profile (str "p1") (str "Jane") (str "jdoe");
              stored_profile (str "p2") (str "Joe") (str "joe")];
           category_object (str "b") (str "Work") []].

(** Two categories that share the id [a]. *)
Definition duplicated : World :=
  holding [category_object (str "a") (str "First")
             [stored_profile (str "p1") (str "Jane") (str "jdoe")];
           category_object (str "a") (str "Second")
             [stored_profile (str "p1") (str "Jane") (str "jdoe")]].

(** Two categories that share an id made of one space. *)
Definition blank_ids : World :=
  holding [category_object (str " ") (str "First") [];
           category_object (str " ") (str "Second") []].

(** A category with a [null] among its profiles. *)
Definition with_null : World :=
  holding [category_object (str "a") (str "Friends")
             [stored_profile (str "p1") (str "Jane") (str "jdoe");
              JNull;
              stored_profile (str "p2") (str "Joe") (str "joe")]].

(** A network that is down. *)
Definition offline : Network := {|
  fetch := fun _ => Rejected (TypeError "Failed to fetch")
|}.

(** A network that answers every request with status 200, the given JSON
    body and the given blob. *)
Definition serving (body : JSValue) (image : Blob) : Network := {|
  fetch := fun _ => Fulfilled {| ok := true; status := 200;
                                 json := Fulfilled body; blob := Fulfilled image |}
|}.

(** A profile page as the endpoint describes it. *)
Definition profile_page (full_name username : JSValue) : JSValue :=
  JObject [(str "graphql",
            JObject [(str "user",
                      JObject [(str "full_name", full_name);
                               (str "username", username)])])].

End Sample.

(** ** Notions of the specification *)

(** "Empty or whitespace-only". *)
Definition blank (s : jsstring) : bool := forallb isWhiteSpace s.

(** The Document: the categories that the storage slot holds, in order. *)
Definition document (w : World) : list JSValue :=
  match localStorage w !! Utils.STORAGE_KEY with
  | Some (JSONText (JArray items)) => List.filter Utils.is_Category items
  | _ => []
  end.

(** What is read back of an array element once it has been written. *)
Definition stored (v : JSValue) : JSValue := default JNull (serialize v).

(** Values that JSON writes and reads back unchanged: no [undefined], no
    non-finite number, no negative zero. *)
Fixpoint json_stable (v : JSValue) : bool :=
  match v with
  | JUndefined => false
  | JNull => true
  | JBool _ => true
  | JNumber n =>
      match n with
      | S754_finite _ _ _ => true
      | S754_zero s => negb s
      | S754_infinity _ => false
      | S754_nan => false
      end
  | JString _ => true
  | JArray elems => forallb json_stable elems
  | JObject props => forallb (fun '(_, x) => json_stable x) props
  end.

(** Strings without an unpaired surrogate. *)
Fixpoint well_formed (s : jsstring) : bool :=
  match s with
  | [] => true
  | c :: rest =>
      if isLeadSurrogate c then
        match rest with
        | d :: rest' => isTrailSurrogate d && well_formed rest'
        | [] => false
        end
      else negb (isTrailSurrogate c) && well_formed rest
  end.

(** The first non-empty segment of a URL path. *)
Definition first_segment (path : jsstring) : option jsstring :=
  head (List.filter truthy (split 0x2F path)).

(** The host test that the spec words: the host, with one leading [www.]
    taken off and case ignored, is the Instagram domain. *)
Definition is_instagram_host (host : jsstring) : bool :=
  bool_decide (canonicalize <$> replace_prefix (str "www.") host
               = canonicalize <$> str "instagram.com").

(** The characters of a percent-encoded component. *)
Definition isHexUpper (c : N) : bool :=
  ((0x30 <=? c) && (c <=? 0x39)) || ((0x41 <=? c) && (c <=? 0x46)).

Definition isEncodedChar (c : N) : bool :=
  uriUnescaped c || (c =? 0x25) || isHexUpper c.

(** The first position of a list whose element has the given [id]. *)
Definition first_with_id (wanted : jsstring) (l : list JSValue) (i : nat) : Prop :=
  (exists x, l !! i = Some x /\ get (str "id") x = JString wanted) /\
  forall j y, (j < i)%nat -> l !! j = Some y -> get (str "id") y <> JString wanted.




(** A string that is the first non-empty segment of some path. *)
Definition first_segment_of_some_path (seg : jsstring) : Prop :=
  exists path, first_segment path = Some seg.

(** A profile entry that can be asked for its [id] and has another one. *)
Definition other_profile (wanted : jsstring) (p : JSValue) : Prop :=
  p <> JNull /\ p <> JUndefined /\ get (str "id") p <> JString wanted.

(** The outcome of saving a list of categories and then returning [true]:
    either the write goes through, or the save fails with the error of
    [writeCategories] and only the attempt is on record. *)
Definition save `{Platform} (doc : list JSValue) (w : World) : Res bool * World :=
  let text := JSON_stringify (JArray doc) in
  if setItem_ok (localStorage w) Utils.STORAGE_KEY text
  then (Ok true, written Utils.STORAGE_KEY text w)
  else (Throw PersistenceError, called Utils.STORAGE_KEY text w).

(** * Properties *)

Import Utils.

(** Case analysis on every comparison of code units in sight. *)
Ltac cmp_cases :=
  repeat match goal with
         | |- context [N.leb ?a ?b] => destruct (N.leb_spec a b)
         | |- context [N.ltb ?a ?b] => destruct (N.ltb_spec a b)
         | |- context [N.eqb ?a ?b] => destruct (N.eqb_spec a b)
         end;
  simpl; try done; try lia.

(** ** Strings *)

Lemma trimStart_nil (s : jsstring) : trimStart s = [] <-> blank s = true.
Proof.
  induction s as [|c s IH]; simpl; [done|].
  destruct (isWhiteSpace c); simpl; [exact IH|]. split; discriminate.
Qed.

Lemma trimStart_head (s : jsstring) c t :
  trimStart s = c :: t -> isWhiteSpace c = false.
Proof.
  induction s as [|d s IH]; simpl; [discriminate|].
  destruct (isWhiteSpace d) eqn:Hd; [exact IH|].
  intros [= <- _]. exact Hd.
Qed.

Lemma blank_rev (s : jsstring) : blank (rev s) = blank s.
Proof.
  unfold blank. induction s as [|c s IH]; simpl; [done|].
  rewrite forallb_app, IH. simpl. rewrite andb_true_r. apply andb_comm.
Qed.

(** [trim] leaves nothing exactly of the strings that are empty or all
    white space. *)
Lemma trim_truthy (s : jsstring) : truthy (trim s) = negb (blank s).
Proof.
  unfold trim, trimEnd.
  destruct (blank s) eqn:Hb; simpl.
  - apply trimStart_nil in Hb. rewrite Hb. reflexivity.
  - destruct (trimStart s) as [|c t] eqn:Ht.
    { apply trimStart_nil in Ht. congruence. }
    destruct (trimStart (rev (c :: t))) as [|d u] eqn:Hu.
    + apply trimStart_nil in Hu. rewrite blank_rev in Hu. simpl in Hu.
      rewrite (trimStart_head _ _ _ Ht) in Hu. discriminate.
    + simpl. destruct (rev u ++ [d]) eqn:E; [|done].
      by destruct (rev u).
Qed.

(** ** [encodeURIComponent] *)

Lemma uriUnescaped_ascii c : uriUnescaped c = true -> c < 0x80.
Proof.
  unfold uriUnescaped. intros Hc.
  apply orb_true_iff in Hc as [Hc|Hc].
  - revert Hc. unfold isAlnum. cmp_cases.
  - apply bool_decide_eq_true in Hc.
    let l := eval vm_compute in (str "-_.!~*'()") in
    change (str "-_.!~*'()") with l in Hc.
    repeat (apply elem_of_cons in Hc as [->|Hc]; [reflexivity|]).
    by apply elem_of_nil in Hc.
Qed.

Lemma uriUnescaped_not_surrogate c :
  uriUnescaped c = true -> isLeadSurrogate c = false /\ isTrailSurrogate c = false.
Proof.
  intros Hc%uriUnescaped_ascii. unfold isLeadSurrogate, isTrailSurrogate.
  split; cmp_cases.
Qed.

(** Induction on strings that may peel off one or two code units. *)
Lemma jsstring_pair_ind (P : jsstring -> Prop) :
  P [] ->
  (forall c rest, P rest -> (forall d rest', rest = d :: rest' -> P rest') -> P (c :: rest)) ->
  forall s, P s.
Proof.
  intros Hnil Hcons s.
  assert (P s /\ forall d s', s = d :: s' -> P s') as [Hs _]; [|exact Hs].
  induction s as [|c s [IH1 IH2]].
  - split; [exact Hnil|discriminate].
  - split; [by apply Hcons|]. by intros d s' [= _ <-].
Qed.

(** Encoding succeeds exactly on the strings without an unpaired surrogate;
    on the others it throws [URIError]. *)
Lemma encodeURIComponent_well_formed (s : jsstring) :
  if well_formed s then exists out, encodeURIComponent s = Ok out
  else encodeURIComponent s = Throw URIError.
Proof.
  induction s as [|c rest IH IH2] using jsstring_pair_ind; simpl; [by eexists|].
  destruct (uriUnescaped c) eqn:Hu.
  - destruct (uriUnescaped_not_surrogate c Hu) as [-> ->]. simpl.
    destruct (well_formed rest).
    + destruct IH as [out ->]. by eexists.
    + by rewrite IH.
  - destruct (isLeadSurrogate c) eqn:Hl.
    + destruct rest as [|d rest']; [done|].
      destruct (isTrailSurrogate d); simpl; [|done].
      specialize (IH2 d rest' eq_refl).
      destruct (well_formed rest').
      * destruct IH2 as [out ->]. by eexists.
      * by rewrite IH2.
    + destruct (isTrailSurrogate c); simpl; [done|].
      destruct (well_formed rest).
      * destruct IH as [out ->]. by eexists.
      * by rewrite IH.
Qed.

(** Unreserved characters pass through untouched. *)
Lemma encodeURIComponent_unescaped (s : jsstring) :
  forallb uriUnescaped s = true -> encodeURIComponent s = Ok s.
Proof.
  induction s as [|c s IH]; simpl; [done|].
  intros [-> Hs]%andb_true_iff. by rewrite (IH Hs).
Qed.

Lemma hex_digit_upper d : d < 16 -> isHexUpper (hex_digit d) = true.
Proof.
  unfold hex_digit. intros Hd.
  destruct (N.ltb_spec d 10); unfold isHexUpper; cmp_cases.
Qed.

Lemma percent_octet_encoded b :
  b < 256 -> forallb isEncodedChar (percent_octet b) = true.
Proof.
  intros Hb. unfold percent_octet, isEncodedChar. simpl.
  rewrite !hex_digit_upper, !orb_true_r; [done| |].
  - apply N.mod_lt. lia.
  - apply N.Div0.div_lt_upper_bound; lia.
Qed.

Lemma utf8_octets cp : cp < 0x110000 -> Forall (fun b => b < 256) (utf8 cp).
Proof.
  intros Hcp. unfold utf8.
  assert (forall n, n mod 0x40 < 0x40) as Hmod by (intros; apply N.mod_lt; lia).
  cmp_cases; repeat constructor;
    try (pose proof (Hmod cp); pose proof (Hmod (cp / 0x40));
         pose proof (Hmod (cp / 0x1000)); lia).
  - enough (cp / 0x40 < 0x20) by lia. apply N.Div0.div_lt_upper_bound; lia.
  - enough (cp / 0x1000 < 0x10) by lia. apply N.Div0.div_lt_upper_bound; lia.
  - enough (cp / 0x40000 < 0x10) by lia. apply N.Div0.div_lt_upper_bound; lia.
Qed.

Lemma percent_encode_encoded cp :
  cp < 0x110000 -> forallb isEncodedChar (percent_encode cp) = true.
Proof.
  intros Hcp%utf8_octets. unfold percent_encode.
  induction Hcp as [|b bs Hb _ IH]; [done|].
  change (forallb isEncodedChar (percent_octet b ++ concat (percent_octet <$> bs)) = true).
  rewrite forallb_app, IH, andb_true_r.
  by apply percent_octet_encoded.
Qed.

Lemma surrogate_pair_range hi lo :
  isLeadSurrogate hi = true -> isTrailSurrogate lo = true ->
  surrogate_pair hi lo < 0x110000.
Proof. unfold isLeadSurrogate, isTrailSurrogate, surrogate_pair. cmp_cases. Qed.

(** The output holds unreserved characters and [%XX] escapes only. *)
Lemma encodeURIComponent_encoded (s out : jsstring) :
  forallb (fun c => c <? 0x10000) s = true ->
  encodeURIComponent s = Ok out ->
  forallb isEncodedChar out = true.
Proof.
  revert out.
  induction s as [|c rest IH IH2] using jsstring_pair_ind; simpl; intros out.
  { by intros _ [= <-]. }
  intros [Hc Hrest]%andb_true_iff.
  destruct (uriUnescaped c) eqn:Hu.
  - destruct (encodeURIComponent rest) as [o|]; simpl; [|done].
    intros [= <-]. simpl. unfold isEncodedChar at 1. rewrite Hu. simpl. by apply IH.
  - destruct (isLeadSurrogate c) eqn:Hl.
    + destruct rest as [|d rest']; [done|].
      destruct (isTrailSurrogate d) eqn:Hd; [|done].
      simpl in Hrest. apply andb_true_iff in Hrest as [_ Hrest].
      destruct (encodeURIComponent rest') as [o|] eqn:Ho; simpl; [|done].
      intros [= <-]. rewrite forallb_app.
      rewrite (percent_encode_encoded _ (surrogate_pair_range _ _ Hl Hd)).
      simpl. by eapply IH2.
    + destruct (isTrailSurrogate c); [done|].
      destruct (encodeURIComponent rest) as [o|]; simpl; [|done].
      intros [= <-]. rewrite forallb_app.
      rewrite percent_encode_encoded by (revert Hc; cmp_cases). simpl. by apply IH.
Qed.

(** ** JSON values *)

(** Structural induction that reaches into arrays and objects. *)
Lemma JSValue_nested_ind (P : JSValue -> Prop) :
  P JUndefined -> P JNull -> (forall b, P (JBool b)) -> (forall n, P (JNumber n)) ->
  (forall s, P (JString s)) ->
  (forall elems, Forall P elems -> P (JArray elems)) ->
  (forall props, Forall (fun kv => P kv.2) props -> P (JObject props)) ->
  forall v, P v.
Proof.
  intros Hu Hn Hb Hnum Hs Harr Hobj.
  fix IH 1. intros [| |b|n|s|elems|props].
  - exact Hu.
  - exact Hn.
  - apply Hb.
  - apply Hnum.
  - apply Hs.
  - apply Harr. induction elems as [|x elems IHl]; constructor; [apply IH|exact IHl].
  - apply Hobj. induction props as [|[k x] props IHl]; constructor; [apply IH|exact IHl].
Qed.

Lemma serialize_object props :
  serialize (JObject props) = Some (JObject (serialize_props props)).
Proof. reflexivity. Qed.

Lemma serialize_array elems :
  serialize (JArray elems) = Some (JArray (stored <$> elems)).
Proof. reflexivity. Qed.

(** A stable value is written and read back as itself. *)
Lemma json_stable_serialize v : json_stable v = true -> serialize v = Some v.
Proof.
  induction v as [| |b|n|s|elems IH|props IH] using JSValue_nested_ind;
    try done.
  - destruct n as [[]| | |]; done.
  - intros Hs. rewrite serialize_array. do 2 f_equal.
    simpl in Hs. induction IH as [|x elems Hx _ IHl]; [done|].
    simpl in Hs. apply andb_true_iff in Hs as [Hx' Hs].
    rewrite fmap_cons, (IHl Hs). f_equal. unfold stored. by rewrite (Hx Hx').
  - intros Hs. rewrite serialize_object. do 2 f_equal.
    simpl in Hs. induction IH as [|[k x] props Hx _ IHl]; [done|].
    simpl in Hs, Hx. apply andb_true_iff in Hs as [Hx' Hs].
    simpl. by rewrite (Hx Hx'), (IHl Hs).
Qed.

Lemma json_stable_stored v : json_stable v = true -> stored v = v.
Proof. intros Hv. unfold stored. by rewrite json_stable_serialize. Qed.

(** What has been written once is stable from then on. *)
Lemma serialize_json_stable v v' : serialize v = Some v' -> json_stable v' = true.
Proof.
  revert v'.
  induction v as [| |b|n|s|elems IH|props IH] using JSValue_nested_ind;
    intros v'; try (by intros [= <-]).
  - destruct n as [[]|[]| |]; by intros [= <-].
  - rewrite serialize_array. intros [= <-]. simpl.
    induction IH as [|x elems Hx _ IHl]; [done|].
    rewrite fmap_cons. simpl. rewrite IHl, andb_true_r.
    unfold stored. destruct (serialize x) as [x'|]; [by apply Hx|done].
  - rewrite serialize_object. intros [= <-]. simpl.
    induction IH as [|[k x] props Hx _ IHl]; [done|].
    simpl in *. destruct (serialize x) as [x'|]; [|done].
    simpl. by rewrite (Hx x' eq_refl), IHl.
Qed.

Lemma stored_json_stable v : json_stable (stored v) = true.
Proof.
  unfold stored. destruct (serialize v) as [v'|] eqn:E; [|done].
  by eapply serialize_json_stable.
Qed.

Lemma stored_idemp v : stored (stored v) = stored v.
Proof. apply json_stable_stored, stored_json_stable. Qed.

Lemma assoc_serialize_props k props v v' :
  assoc k props = Some v -> serialize v = Some v' ->
  assoc k (serialize_props props) = Some v'.
Proof.
  intros Hk Hv. induction props as [|[k' x] props IH]; simpl in *; [done|].
  case_bool_decide as Hkk.
  - injection Hk as ->. rewrite Hv. simpl. by rewrite bool_decide_true.
  - destruct (serialize x); [simpl; rewrite bool_decide_false by done|]; auto.
Qed.

(** A category keeps its shape, its [id] and its [name] through a write. *)
Lemma is_Category_inv c :
  is_Category c = true ->
  exists props i n ps,
    c = JObject props /\ assoc (str "id") props = Some (JString i) /\
    assoc (str "name") props = Some (JString n) /\
    assoc (str "profiles") props = Some (JArray ps).
Proof.
  unfold is_Category. intros Hc.
  repeat (apply andb_true_iff in Hc as [Hc ?]).
  destruct c as [| | | | | |props]; try done.
  simpl in *. exists props.
  destruct (assoc (str "id") props) as [[]|]; try done.
  destruct (assoc (str "name") props) as [[]|]; try done.
  destruct (assoc (str "profiles") props) as [[]|]; try done.
  by do 3 eexists.
Qed.

Lemma is_Category_intro props i n ps :
  assoc (str "id") props = Some (JString i) ->
  assoc (str "name") props = Some (JString n) ->
  assoc (str "profiles") props = Some (JArray ps) ->
  is_Category (JObject props) = true.
Proof. intros Hi Hn Hp. unfold is_Category. simpl. rewrite Hi, Hn, Hp. done. Qed.

Lemma stored_Category c :
  is_Category c = true ->
  is_Category (stored c) = true /\
  get (str "id") (stored c) = get (str "id") c /\
  get (str "name") (stored c) = get (str "name") c /\
  get (str "profiles") (stored c)
  = JArray (stored <$> array_elements (get (str "profiles") c)).
Proof.
  intros (props & i & n & ps & -> & Hi & Hn & Hp)%is_Category_inv.
  unfold stored at 1 2 3 4. rewrite serialize_object. simpl.
  pose proof (assoc_serialize_props _ _ _ _ Hi eq_refl) as Hi'.
  pose proof (assoc_serialize_props _ _ _ _ Hn eq_refl) as Hn'.
  pose proof (assoc_serialize_props _ _ _ _ Hp (serialize_array ps)) as Hp'.
  split; [by eapply is_Category_intro|].
  by rewrite Hi, Hn, Hp, Hi', Hn', Hp'.
Qed.

(** ** The URL helpers *)

(** *** The sample URL parser on URLs of the plain shape *)







(** *** Path segments *)

Lemma split_one_segment sep (seg : jsstring) :
  forallb (fun c => negb (c =? sep)) seg = true -> split sep seg = [seg].
Proof.
  induction seg as [|c seg IH]; simpl; [done|].
  intros [Hc Hseg]%andb_true_iff. apply negb_true_iff in Hc. by rewrite Hc, IH.
Qed.




Section Normalizer.
Context `{Platform}.

(** [normalizeInstagramUrl] in closed form. *)
Lemma normalizeInstagramUrl_unfold (raw : jsstring) :
  normalizeInstagramUrl (JString raw) =
  Ok (if blank raw then None
      else match URL_new raw with
           | Throw _ => None
           | Ok u =>
               if test_suffix_i (str "instagram.com")
                    (replace_prefix (str "www.") (hostname u))
               then (fun seg => {| username := seg;
                                   url := str "https://instagram.com/" ++ seg |})
                      <$> first_segment (pathname u)
               else None
           end).
Proof.
  unfold normalizeInstagramUrl. rewrite trim_truthy.
  destruct (blank raw); simpl; [done|].
  destruct (URL_new raw) as [u|e]; simpl; [|done].
  destruct (test_suffix_i _ _); simpl; [|done].
  unfold first_segment.
  destruct (List.filter truthy (split 47 (pathname u))) as [|seg parts] eqn:E; [done|].
  assert (truthy seg = true) as Hseg.
  { assert (In seg (List.filter truthy (split 47 (pathname u)))) as Hin
      by (rewrite E; left; done).
    by apply filter_In in Hin as [_ ?]. }
  destruct seg; [done|]. reflexivity.
Qed.

Lemma app_normalizeInstagramUrl_unfold (raw : jsstring) :
  App.normalizeInstagramUrl raw =
  Ok match URL_new raw with
     | Throw _ => None
     | Ok u =>
         if test_suffix_i (str "instagram.com")
              (replace_prefix (str "www.") (hostname u))
         then (fun seg => {| username := seg;
                             url := str "https://instagram.com/" ++ seg |})
                <$> first_segment (pathname u)
         else None
     end.
Proof.
  unfold App.normalizeInstagramUrl.
  destruct (URL_new raw) as [u|e]; simpl; [|done].
  destruct (test_suffix_i _ _); simpl; [|done].
  unfold first_segment.
  destruct (List.filter truthy (split 47 (pathname u))) as [|seg parts] eqn:E; [done|].
  assert (truthy seg = true) as Hseg.
  { assert (In seg (List.filter truthy (split 47 (pathname u)))) as Hin
      by (rewrite E; left; done).
    by apply filter_In in Hin as [_ ?]. }
  destruct seg; [done|]. reflexivity.
Qed.

End Normalizer.



(** C1.  The host test only looks at how the host ends: a foreign host that
    ends in [instagram.com] is let through, by [src/utils.ts] and by
    [src/app.js] alike, although it is not the Instagram domain. *)
Theorem normalizeInstagramUrl_foreign_host :
  Sample.simple_URL (str "https://notinstagram.com/jdoe")
  = Ok {| protocol := str "https:"; hostname := str "notinstagram.com"; port := [];
          pathname := str "/jdoe"; search := []; hash := [] |} /\
  is_instagram_host (str "notinstagram.com") = false /\
  @normalizeInstagramUrl Sample.roomy (JString (str "https://notinstagram.com/jdoe"))
  = Ok (Some {| username := str "jdoe"; url := str "https://instagram.com/jdoe" |}) /\
  @App.normalizeInstagramUrl Sample.roomy (str "https://notinstagram.com/jdoe")
  = Ok (Some {| username := str "jdoe"; url := str "https://instagram.com/jdoe" |}).
Proof. repeat split; vm_compute; reflexivity. Qed.

(** C8.  [instaDeepLink] throws its [TypeError] exactly for a blank
    username.  For any other username without an unpaired surrogate it
    returns the two links around [encodeURIComponent username], which keeps
    unreserved characters and writes everything else as [%XX] escapes.  A
    username with an unpaired surrogate makes [encodeURIComponent] throw
    [URIError]. *)
Theorem instaDeepLink_result (name : jsstring) :
  ((exists e, instaDeepLink (JString name) = Throw e /\ is_ValidationError e = true)
   <-> blank name = true) /\
  (blank name = false -> well_formed name = true ->
   exists enc,
     encodeURIComponent name = Ok enc /\
     instaDeepLink (JString name)
     = Ok {| appUrl := str "instagram://user?username=" ++ enc;
             webUrl := str "https://instagram.com/" ++ enc |} /\
     (forallb (fun c => c <? 0x10000) name = true -> forallb isEncodedChar enc = true) /\
     (forallb uriUnescaped name = true -> enc = name)) /\
  (blank name = false -> well_formed name = false ->
   instaDeepLink (JString name) = Throw URIError).
Proof.
  unfold instaDeepLink. rewrite trim_truthy.
  pose proof (encodeURIComponent_well_formed name) as Henc.
  destruct (blank name); simpl.
  - repeat split; try done. by eexists.
  - repeat split; try done.
    + intros (e & He & Hv). destruct (well_formed name).
      * destruct Henc as [enc Henc]. by rewrite Henc in He.
      * rewrite Henc in He. simpl in He. by injection He as <-.
    + intros _ Hwf. rewrite Hwf in Henc. destruct Henc as [enc Henc].
      exists enc. rewrite Henc. simpl. repeat split; try done.
      * intros Hcu. by eapply encodeURIComponent_encoded.
      * intros Hun. rewrite encodeURIComponent_unescaped in Henc by done. congruence.
    + intros _ Hwf. rewrite Hwf in Henc. by rewrite Henc.
Qed.

Lemma instaDeepLink_result_witness :
  exists enc,
    encodeURIComponent (str "j doe") = Ok enc /\
    instaDeepLink (JString (str "j doe"))
    = Ok {| appUrl := str "instagram://user?username=" ++ enc;
            webUrl := str "https://instagram.com/" ++ enc |} /\
    (forallb (fun c => c <? 0x10000) (str "j doe") = true ->
     forallb isEncodedChar enc = true) /\
    (forallb uriUnescaped (str "j doe") = true -> enc = str "j doe").
Proof.
  exact (proj1 (proj2 (instaDeepLink_result (str "j doe"))) eq_refl eq_refl).
Defined.

(** A username that is not blank and still yields no link: an unpaired
    surrogate makes the encoder throw [URIError]. *)
Lemma instaDeepLink_unpaired_surrogate :
  blank [0xD83D] = false /\
  instaDeepLink (JString [0xD83D]) = Throw URIError /\
  is_ValidationError URIError = false.
Proof. repeat split. Qed.

(** ** The store *)

(** Reading never fails and never changes the world: it yields the Document. *)
Lemma readCategories_document (w : World) :
  readCategories w = (Ok (document w), w).
Proof.
  unfold readCategories, document, try_catch, bind, localStorage_getItem, lift, ret.
  destruct (localStorage w !! STORAGE_KEY) as [[| |v]|]; try done.
  by destruct v.
Qed.

Section Store.
Context `{Platform}.

(** [writeCategories] in closed form. *)
Lemma writeCategories_unfold (categories : JSValue) (w : World) :
  writeCategories categories w =
  if Array_isArray categories then
    if setItem_ok (localStorage w) STORAGE_KEY (JSON_stringify categories)
    then (Ok tt, written STORAGE_KEY (JSON_stringify categories) w)
    else (Throw PersistenceError, called STORAGE_KEY (JSON_stringify categories) w)
  else (Throw (TypeError "Categories must be an array"), w).
Proof.
  unfold writeCategories, try_catch, localStorage_setItem, throw.
  destruct (Array_isArray categories); simpl; [|done].
  by destruct (setItem_ok _ _ _).
Qed.
End Store.

Lemma document_called key text w : document (called key text w) = document w.
Proof. reflexivity. Qed.

(** The Document after a list of categories has been written. *)
Lemma document_written (doc : list JSValue) (w : World) :
  Forall (fun c => is_Category c = true) doc ->
  document (written STORAGE_KEY (JSON_stringify (JArray doc)) w) = stored <$> doc.
Proof.
  intros Hdoc. unfold document, written. simpl.
  rewrite lookup_insert_eq. unfold JSON_stringify. rewrite serialize_array.
  cbn beta iota.
  induction Hdoc as [|c doc Hc _ IH]; [done|].
  change (stored <$> c :: doc) with (stored c :: (stored <$> doc)).
  cbn [List.filter].
  destruct (stored_Category c Hc) as [-> _]. by rewrite IH.
Qed.

Lemma document_Category (w : World) :
  Forall (fun c => is_Category c = true) (document w).
Proof.
  unfold document. apply Forall_forall. intros c Hc.
  destruct (localStorage w !! STORAGE_KEY) as [[| |[]]|];
    try (by apply elem_of_nil in Hc).
  apply list_elem_of_In, filter_In in Hc. tauto.
Qed.

Lemma document_lookup_Category (w : World) i c :
  document w !! i = Some c -> is_Category c = true.
Proof. intros Hc. exact (Forall_lookup_1 _ _ _ _ (document_Category w) Hc). Qed.

Lemma stored_stable_list (doc : list JSValue) :
  forallb json_stable doc = true -> stored <$> doc = doc.
Proof.
  induction doc as [|c doc IH]; [done|]. cbn [forallb].
  intros [Hc Hdoc]%andb_true_iff.
  change (stored <$> c :: doc) with (stored c :: (stored <$> doc)).
  by rewrite json_stable_stored, IH.
Qed.

(** ** Searching by [id] *)

Lemma res_map_succ (r : Res (option nat)) (i : nat) :
  res_map (option_map S) r = Ok (Some i) <->
  exists k, i = S k /\ r = Ok (Some k).
Proof.
  destruct r as [[k|]|e]; simpl.
  - split; [intros [= <-]; by exists k|]. by intros (k' & -> & [= ->]).
  - split; [done|]. by intros (k' & _ & ?).
  - split; [done|]. by intros (k' & _ & ?).
Qed.

Lemma findIndex_Some {A} (pred : A -> Res bool) (l : list A) (i : nat) :
  findIndex pred l = Ok (Some i) <->
  (exists x, l !! i = Some x /\ pred x = Ok true) /\
  (forall j y, (j < i)%nat -> l !! j = Some y -> pred y = Ok false).
Proof.
  revert i. induction l as [|x l IH]; intros i; simpl.
  { split; [done|]. by intros [(y & Hy & _) _]. }
  destruct (pred x) as [[]|e] eqn:Hx.
  - split.
    + intros [= <-]. split; [by exists x|]. intros j y Hj. lia.
    + intros [(y & Hy & Hp) Hlt]. destruct i as [|i]; [done|].
      specialize (Hlt 0%nat x ltac:(lia) eq_refl). congruence.
  - rewrite res_map_succ. split.
    + intros (k & -> & Hk). apply IH in Hk as [Hk Hlt]. split; [exact Hk|].
      intros [|j] y Hj; simpl; [by intros [= <-]|]. apply Hlt. lia.
    + intros [(y & Hy & Hp) Hlt]. destruct i as [|i]; simpl in Hy.
      { injection Hy as <-. congruence. }
      exists i. split; [done|]. apply IH. split; [by exists y|].
      intros j z Hj Hz. apply (Hlt (S j) z); [lia|done].
  - split; [done|]. intros [(y & Hy & Hp) Hlt]. destruct i as [|i]; simpl in Hy.
    + injection Hy as <-. congruence.
    + specialize (Hlt 0%nat x ltac:(lia) eq_refl). congruence.
Qed.

Lemma findIndex_None {A} (pred : A -> Res bool) (l : list A) :
  findIndex pred l = Ok None <-> Forall (fun x => pred x = Ok false) l.
Proof.
  induction l as [|x l IH]; simpl; [by split|].
  destruct (pred x) as [[]|e] eqn:Hx.
  - split; [done|]. intros [Hx' _]%Forall_cons. congruence.
  - destruct (findIndex pred l) as [[k|]|e] eqn:Hf; simpl.
    + split; [done|]. intros [_ Hl]%Forall_cons. by apply IH in Hl.
    + split; [|done]. intros _. constructor; [done|]. by apply IH.
    + split; [done|]. intros [_ Hl]%Forall_cons. by apply IH in Hl.
  - split; [done|]. intros [Hx' _]%Forall_cons. congruence.
Qed.

(** [find] returns the element that [findIndex] points at. *)
Lemma find_findIndex {A} (pred : A -> Res bool) (l : list A) :
  find pred l = res_map (fun oi => oi ≫= (l !!.)) (findIndex pred l).
Proof.
  induction l as [|x l IH]; simpl; [done|].
  destruct (pred x) as [[]|e]; try done.
  rewrite IH. by destruct (findIndex pred l) as [[k|]|e'].
Qed.

Lemma strict_equals_string_true v s :
  strict_equals_string v s = true <-> v = JString s.
Proof.
  destruct v; simpl; try (split; [done|discriminate]).
  rewrite bool_decide_eq_true. split; [by intros ->|by intros [= ->]].
Qed.

Lemma strict_equals_string_false v s :
  strict_equals_string v s = false <-> v <> JString s.
Proof.
  rewrite <- strict_equals_string_true. by destruct (strict_equals_string v s).
Qed.

(** On a category the callback reads [id] without throwing. *)
Lemma id_equals_Category wanted c :
  is_Category c = true ->
  id_equals wanted c = Ok (strict_equals_string (get (str "id") c) wanted).
Proof. by intros (props & i & n & ps & -> & _)%is_Category_inv. Qed.

Lemma findIndex_first_with_id wanted (doc : list JSValue) (i : nat) :
  Forall (fun c => is_Category c = true) doc ->
  findIndex (id_equals wanted) doc = Ok (Some i) <-> first_with_id wanted doc i.
Proof.
  intros Hdoc. rewrite findIndex_Some. unfold first_with_id.
  rewrite Forall_lookup in Hdoc.
  split; intros [(x & Hx & Hp) Hlt]; (split; [exists x; split; [done|]|intros j y Hj Hy]).
  - rewrite id_equals_Category in Hp by eauto. injection Hp as Hp.
    by apply strict_equals_string_true.
  - specialize (Hlt j y Hj Hy). rewrite id_equals_Category in Hlt by eauto.
    injection Hlt as Hlt. by apply strict_equals_string_false.
  - rewrite id_equals_Category by eauto. f_equal. by apply strict_equals_string_true.
  - rewrite id_equals_Category by eauto. f_equal.
    apply strict_equals_string_false. eauto.
Qed.

Lemma findIndex_no_id wanted (doc : list JSValue) :
  Forall (fun c => is_Category c = true) doc ->
  findIndex (id_equals wanted) doc = Ok None <->
  Forall (fun c => get (str "id") c <> JString wanted) doc.
Proof.
  intros Hdoc. rewrite findIndex_None.
  rewrite !Forall_forall in *. split; intros Hall c Hc.
  - specialize (Hall c Hc). rewrite id_equals_Category in Hall by eauto.
    injection Hall as Hall. by apply strict_equals_string_false.
  - rewrite id_equals_Category by eauto. f_equal.
    apply strict_equals_string_false. eauto.
Qed.

(** On categories the search always comes back with an answer. *)
Lemma findIndex_Category_total wanted (doc : list JSValue) :
  Forall (fun c => is_Category c = true) doc ->
  exists oi, findIndex (id_equals wanted) doc = Ok oi.
Proof.
  induction 1 as [|c doc Hc _ [oi IH]]; simpl; [by eexists|].
  rewrite id_equals_Category by done.
  destruct (strict_equals_string _ _); [by eexists|]. rewrite IH. by eexists.
Qed.

Lemma profiles_at_Category (doc : list JSValue) i c :
  doc !! i = Some c -> is_Category c = true ->
  profiles_at i doc = Ok (array_elements (get (str "profiles") c)).
Proof.
  intros Hi (props & k & n & ps & -> & _ & _ & Hp)%is_Category_inv.
  unfold profiles_at. rewrite Hi. simpl. by rewrite Hp.
Qed.

(** ** Changing the [profiles] of one category *)

Lemma assoc_set_assoc_eq k x props :
  is_Some (assoc k props) -> assoc k (set_assoc k x props) = Some x.
Proof.
  induction props as [|[k' v] props IH]; simpl; [by intros [? ?]|].
  case_bool_decide as Hk; simpl.
  - by rewrite bool_decide_true.
  - rewrite bool_decide_false by done. exact IH.
Qed.

Lemma assoc_set_assoc_ne k k' x props :
  k <> k' -> assoc k' (set_assoc k x props) = assoc k' props.
Proof.
  intros Hne. induction props as [|[k0 v] props IH]; simpl; [done|].
  case_bool_decide as Hk; simpl.
  - subst k0. by rewrite !bool_decide_false by done.
  - case_bool_decide; [done|exact IH].
Qed.

Lemma set_profiles_Category elems c :
  is_Category c = true ->
  let c' := set_property (str "profiles") (JArray elems) c in
  is_Category c' = true /\
  get (str "id") c' = get (str "id") c /\
  get (str "name") c' = get (str "name") c /\
  get (str "profiles") c' = JArray elems.
Proof.
  intros (props & i & n & ps & -> & Hi & Hn & Hp)%is_Category_inv. simpl.
  assert (assoc (str "id") (set_assoc (str "profiles") (JArray elems) props)
          = Some (JString i)) as Hi'
      by (rewrite assoc_set_assoc_ne; [done|by vm_compute]).
  assert (assoc (str "name") (set_assoc (str "profiles") (JArray elems) props)
          = Some (JString n)) as Hn'
      by (rewrite assoc_set_assoc_ne; [done|by vm_compute]).
  assert (assoc (str "profiles") (set_assoc (str "profiles") (JArray elems) props)
          = Some (JArray elems)) as Hp'
      by (apply assoc_set_assoc_eq; by rewrite Hp).
  split; [by eapply is_Category_intro|].
  by rewrite Hi, Hn, Hi', Hn', Hp'.
Qed.

Lemma with_profiles_at_Category i elems (doc : list JSValue) :
  Forall (fun c => is_Category c = true) doc ->
  Forall (fun c => is_Category c = true) (with_profiles_at i elems doc).
Proof.
  intros Hdoc. apply Forall_alter; [done|].
  intros c _ Hc. by apply set_profiles_Category.
Qed.

Lemma with_profiles_at_other i j elems (doc : list JSValue) :
  i <> j -> with_profiles_at i elems doc !! j = doc !! j.
Proof. apply list_lookup_alter_ne. Qed.

Lemma with_profiles_at_target i elems (doc : list JSValue) c :
  doc !! i = Some c ->
  with_profiles_at i elems doc !! i
  = Some (set_property (str "profiles") (JArray elems) c).
Proof. intros Hc. unfold with_profiles_at. by rewrite list_lookup_alter_eq, Hc. Qed.

Lemma with_profiles_at_length i elems (doc : list JSValue) :
  length (with_profiles_at i elems doc) = length doc.
Proof. apply length_alter. Qed.

(** ** The repository operations in closed form *)

Section Repository.
Context `{Platform}.

Lemma save_writeCategories (doc : list JSValue) (w : World) :
  bind (writeCategories (JArray doc)) (fun _ => ret true) w = save doc w.
Proof.
  unfold bind, save. rewrite writeCategories_unfold. simpl.
  by destruct (setItem_ok _ _ _).
Qed.

Lemma addProfileToCategory_missing categoryId profile w :
  Forall (fun c => get (str "id") c <> JString categoryId) (document w) ->
  addProfileToCategory categoryId profile w = (Ok false, w).
Proof.
  intros Hno. apply findIndex_no_id in Hno; [|apply document_Category].
  unfold addProfileToCategory, bind at 1.
  rewrite readCategories_document. unfold bind at 1, lift. by rewrite Hno.
Qed.

Lemma addProfileToCategory_found categoryId profile w i c :
  first_with_id categoryId (document w) i -> document w !! i = Some c ->
  addProfileToCategory categoryId profile w
  = save (with_profiles_at i (array_elements (get (str "profiles") c) ++ [profile])
            (document w)) w.
Proof.
  intros Hi Hc. pose proof (document_Category w) as Hdoc.
  apply findIndex_first_with_id in Hi; [|done].
  unfold addProfileToCategory, bind at 1.
  rewrite readCategories_document. unfold bind at 1, lift. rewrite Hi.
  unfold bind at 1.
  rewrite (profiles_at_Category _ _ _ Hc) by (by eapply document_lookup_Category).
  apply save_writeCategories.
Qed.

Lemma removeProfileFromCategory_missing categoryId profileId w :
  Forall (fun c => get (str "id") c <> JString categoryId) (document w) ->
  removeProfileFromCategory categoryId profileId w = (Ok false, w).
Proof.
  intros Hno. apply findIndex_no_id in Hno; [|apply document_Category].
  unfold removeProfileFromCategory, bind at 1.
  rewrite readCategories_document. unfold bind at 1, lift. by rewrite Hno.
Qed.

Lemma removeProfileFromCategory_found categoryId profileId w i c :
  first_with_id categoryId (document w) i -> document w !! i = Some c ->
  removeProfileFromCategory categoryId profileId w
  = let profiles := array_elements (get (str "profiles") c) in
    match findIndex (id_equals profileId) profiles with
    | Throw e => (Throw e, w)
    | Ok None => (Ok false, w)
    | Ok (Some k) => save (with_profiles_at i (delete k profiles) (document w)) w
    end.
Proof.
  intros Hi Hc. pose proof (document_Category w) as Hdoc.
  apply findIndex_first_with_id in Hi; [|done].
  unfold removeProfileFromCategory, bind at 1.
  rewrite readCategories_document. unfold bind at 1, lift. rewrite Hi.
  unfold bind at 1.
  rewrite (profiles_at_Category _ _ _ Hc) by (by eapply document_lookup_Category).
  unfold bind at 1. simpl.
  destruct (findIndex (id_equals profileId) _) as [[k|]|e]; try done.
  apply save_writeCategories.
Qed.

(** Either no category has the [id], or there is a first one that has. *)
Lemma first_with_id_cases wanted (w : World) :
  Forall (fun c => get (str "id") c <> JString wanted) (document w) \/
  exists i c, first_with_id wanted (document w) i /\ document w !! i = Some c.
Proof.
  pose proof (document_Category w) as Hdoc.
  destruct (findIndex_Category_total wanted _ Hdoc) as [[i|] Hf].
  - right. apply findIndex_first_with_id in Hf as Hi; [|done].
    destruct Hi as [(c & Hc & ?) ?]. exists i, c. split; [|done].
    by apply findIndex_first_with_id.
  - left. by apply findIndex_no_id.
Qed.

Lemma findCategoryById_found categoryId w i c :
  blank categoryId = false ->
  first_with_id categoryId (document w) i -> document w !! i = Some c ->
  findCategoryById (JString categoryId) w = (Ok (Some c), w).
Proof.
  intros Hb Hi Hc. pose proof (document_Category w) as Hdoc.
  apply findIndex_first_with_id in Hi; [|done].
  unfold findCategoryById. rewrite trim_truthy, Hb. simpl.
  unfold bind. rewrite readCategories_document. unfold lift.
  rewrite find_findIndex, Hi. simpl. by rewrite Hc.
Qed.

Lemma getCurrentCategory_found categoryId w i c :
  query_category w = Some categoryId -> categoryId <> [] ->
  first_with_id categoryId (document w) i -> document w !! i = Some c ->
  getCurrentCategory w = (Ok (Some c), w).
Proof.
  intros Hq Hne Hi Hc. pose proof (document_Category w) as Hdoc.
  apply findIndex_first_with_id in Hi; [|done].
  unfold getCurrentCategory, bind at 1, URLSearchParams_get_category. rewrite Hq.
  destruct categoryId as [|a s]; [done|]. simpl.
  unfold bind. rewrite readCategories_document. unfold lift.
  rewrite find_findIndex, Hi. simpl. by rewrite Hc.
Qed.
End Repository.

(** ** Claims about the store *)

Lemma app_readCategories_slot (w : World) :
  App.readCategories w =
  (Ok match localStorage w !! STORAGE_KEY with
      | Some (JSONText (JArray items)) => items
      | _ => []
      end, w).
Proof.
  unfold App.readCategories, try_catch, bind, localStorage_getItem, lift, ret.
  change App.STORAGE_KEY with STORAGE_KEY.
  destruct (localStorage w !! STORAGE_KEY) as [[| |v]|]; try done.
  by destruct v.
Qed.

(** C3.  Reading never throws and leaves the world alone.  An absent slot,
    empty or unparsable text, and JSON that is not an array give the empty
    sequence.  An array gives its category-shaped elements, the others being
    dropped ([src/utils.ts]), or all of its elements ([src/app.js]). *)
Theorem readCategories_never_throws (w : World) :
  exists doc doc_app,
    readCategories w = (Ok doc, w) /\
    App.readCategories w = (Ok doc_app, w) /\
    match localStorage w !! STORAGE_KEY with
    | Some (JSONText (JArray items)) =>
        doc = List.filter is_Category items /\ doc_app = items
    | _ => doc = [] /\ doc_app = []
    end.
Proof.
  exists (document w). eexists.
  split; [apply readCategories_document|]. split; [apply app_readCategories_slot|].
  unfold document.
  destruct (localStorage w !! STORAGE_KEY) as [[| |v]|]; try done.
  by destruct v.
Qed.

(** Content that is not an array of category-shaped records and yet is not
    read as empty: the one well-shaped record of a mixed array is kept. *)
Lemma readCategories_mixed_array :
  localStorage Sample.mixed !! STORAGE_KEY
  = Some (JSONText (JArray [Sample.friends; JString (str "junk")])) /\
  forallb is_Category [Sample.friends; JString (str "junk")] = false /\
  readCategories Sample.mixed = (Ok [Sample.friends], Sample.mixed).
Proof. repeat split; vm_compute; reflexivity. Qed.

Section Roundtrip.
Context `{Platform}.

(** C4.  Writing back what was read: when the document holds nothing that
    JSON cannot write as it is (no non-finite number, no negative zero, no
    [undefined]), the next read gives the same sequence.  In general a
    write that goes through makes the next read give the stored image of
    the sequence, and a refused write changes nothing. *)
Theorem write_read_roundtrip (w w1 w2 : World) (doc : list JSValue) (r : Res unit) :
  readCategories w = (Ok doc, w1) ->
  writeCategories (JArray doc) w1 = (r, w2) ->
  (forallb json_stable doc = true -> readCategories w2 = (Ok doc, w2)) /\
  (r = Ok tt -> readCategories w2 = (Ok (stored <$> doc), w2)) /\
  (r <> Ok tt -> readCategories w2 = (Ok doc, w2)).
Proof.
  rewrite readCategories_document. intros [= <- <-].
  rewrite writeCategories_unfold. simpl.
  pose proof (document_written _ w (document_Category w)) as Hw.
  destruct (setItem_ok _ _ _); intros [= <- <-];
    rewrite readCategories_document.
  - rewrite Hw. repeat split; try done.
    intros Hs. by rewrite stored_stable_list.
  - rewrite document_called. repeat split; done.
Qed.
End Roundtrip.

Lemma write_read_roundtrip_witness :
  readCategories (written STORAGE_KEY (JSON_stringify (JArray (document Sample.tidy)))
                    Sample.tidy)
  = (Ok (document Sample.tidy),
     written STORAGE_KEY (JSON_stringify (JArray (document Sample.tidy))) Sample.tidy).
Proof.
  exact (proj1 (@write_read_roundtrip Sample.roomy Sample.tidy Sample.tidy _
                  (document Sample.tidy) (Ok tt) eq_refl eq_refl) eq_refl).
Defined.

(** A slot for which the round trip is seen by the next read: the number
    that [1e999] denotes is written back as [null]. *)
Lemma overflow_not_read_back :
  exists doc w2,
    readCategories Sample.overflowing = (Ok doc, Sample.overflowing) /\
    @writeCategories Sample.roomy (JArray doc) Sample.overflowing = (Ok tt, w2) /\
    fst (readCategories w2)
    = Ok [Sample.category_object (str "a") (str "Friends") [JNull]] /\
    fst (readCategories w2) <> Ok doc.
Proof.
  do 2 eexists. split; [vm_compute; reflexivity|].
  split; [vm_compute; reflexivity|].
  split; [vm_compute; reflexivity|]. vm_compute. discriminate.
Qed.

(** ** Claims about the repository operations *)

Lemma filter_res_Category wanted (doc : list JSValue) :
  Forall (fun c => is_Category c = true) doc ->
  filter_res (fun c => res_map negb (id_equals wanted c)) doc
  = Ok (List.filter (fun c => negb (strict_equals_string (get (str "id") c) wanted)) doc).
Proof.
  induction 1 as [|c doc Hc _ IH]; simpl; [done|].
  rewrite id_equals_Category, IH by done. simpl.
  by destruct (strict_equals_string _ _).
Qed.

Lemma filter_drops {A} (f : A -> bool) (l : list A) i x :
  l !! i = Some x -> f x = false -> (length (List.filter f l) < length l)%nat.
Proof.
  assert (forall l', (length (List.filter f l') <= length l')%nat) as Hle.
  { induction l' as [|y l' IH]; simpl; [lia|]. destruct (f y); simpl; lia. }
  revert i. induction l as [|y l IH]; intros i; [done|].
  destruct i as [|i]; simpl.
  - intros [= ->] ->. specialize (Hle l). lia.
  - intros Hi Hx. specialize (IH i Hi Hx). destruct (f y); simpl; lia.
Qed.

Section Operations.
Context `{Platform}.

Lemma deleteCategory_refused categoryId w i :
  first_with_id categoryId (document w) i ->
  (forall text, setItem_ok (localStorage w) STORAGE_KEY text = false) ->
  fst (deleteCategory categoryId w) = Throw PersistenceError.
Proof.
  intros [(c & Hc & Hid) _] Hfull.
  unfold deleteCategory, bind at 1. rewrite readCategories_document.
  unfold bind at 1, lift.
  rewrite filter_res_Category by apply document_Category.
  pose proof (filter_drops
                (fun c => negb (strict_equals_string (get (str "id") c) categoryId))
                _ _ _ Hc) as Hlt.
  cbv beta in Hlt. rewrite Hid in Hlt. simpl in Hlt.
  rewrite bool_decide_true in Hlt by done.
  specialize (Hlt eq_refl).
  destruct (Nat.eqb_spec
              (length (List.filter
                 (fun c => negb (strict_equals_string (get (str "id") c) categoryId))
                 (document w)))
              (length (document w))) as [Heq|_]; [lia|].
  unfold bind. rewrite writeCategories_unfold. simpl. by rewrite Hfull.
Qed.

(** C5.  [writeCategories] throws a [TypeError] for an argument that is
    not an array, before anything is written, and throws its save error
    when [setItem] throws.  The repository operations that reach the write
    pass that error on. *)
Theorem writeCategories_throws (categories : JSValue) (w : World) :
  (Array_isArray categories = false ->
   exists e, writeCategories categories w = (Throw e, w) /\
             is_ValidationError e = true) /\
  (Array_isArray categories = true ->
   setItem_ok (localStorage w) STORAGE_KEY (JSON_stringify categories) = false ->
   writeCategories categories w
   = (Throw PersistenceError, called STORAGE_KEY (JSON_stringify categories) w)) /\
  (forall categoryId i c,
     first_with_id categoryId (document w) i -> document w !! i = Some c ->
     (forall text, setItem_ok (localStorage w) STORAGE_KEY text = false) ->
     (forall profile,
        fst (addProfileToCategory categoryId profile w) = Throw PersistenceError) /\
     (forall profileId k,
        findIndex (id_equals profileId) (array_elements (get (str "profiles") c))
        = Ok (Some k) ->
        fst (removeProfileFromCategory categoryId profileId w)
        = Throw PersistenceError) /\
     fst (deleteCategory categoryId w) = Throw PersistenceError).
Proof.
  split; [|split].
  - intros Hv. rewrite writeCategories_unfold, Hv. by eexists.
  - intros Hv Hfull. by rewrite writeCategories_unfold, Hv, Hfull.
  - intros categoryId i c Hi Hc Hfull. split; [|split].
    + intros profile. rewrite (addProfileToCategory_found _ _ _ _ _ Hi Hc).
      unfold save. by rewrite Hfull.
    + intros profileId k Hk.
      rewrite (removeProfileFromCategory_found _ _ _ _ _ Hi Hc). simpl.
      rewrite Hk. unfold save. by rewrite Hfull.
    + by eapply deleteCategory_refused.
Qed.

(** C2.  For an id that no category has, [addProfileToCategory] returns
    [false] and leaves the world as it was: nothing stored, [setItem] not
    called.  For an id that some category has, the profile is appended to
    the profiles of the first such category and the whole document is
    handed to [setItem]: if the write goes through, the slot holds the new
    document and the result is [true]; if the write throws, the save error
    propagates and the stored document stays as it was. *)
Theorem addProfileToCategory_result (categoryId : jsstring) (profile : JSValue)
    (w : World) :
  (Forall (fun c => get (str "id") c <> JString categoryId) (document w) ->
   addProfileToCategory categoryId profile w = (Ok false, w)) /\
  (forall i c,
     first_with_id categoryId (document w) i -> document w !! i = Some c ->
     let profiles := array_elements (get (str "profiles") c) in
     let appended := with_profiles_at i (profiles ++ [profile]) (document w) in
     let text := JSON_stringify (JArray appended) in
     (exists c', appended !! i = Some c' /\
                 get (str "profiles") c' = JArray (profiles ++ [profile])) /\
     (setItem_ok (localStorage w) STORAGE_KEY text = true ->
      addProfileToCategory categoryId profile w
      = (Ok true, written STORAGE_KEY text w) /\
      localStorage (written STORAGE_KEY text w) !! STORAGE_KEY = Some text) /\
     (setItem_ok (localStorage w) STORAGE_KEY text = false ->
      addProfileToCategory categoryId profile w
      = (Throw PersistenceError, called STORAGE_KEY text w) /\
      localStorage (called STORAGE_KEY text w) = localStorage w)).
Proof.
  split; [apply addProfileToCategory_missing|].
  intros i c Hi Hc profiles appended text.
  rewrite (addProfileToCategory_found _ _ _ _ _ Hi Hc).
  fold profiles. fold appended. unfold save. fold text.
  split; [|split].
  - eexists. split; [by apply with_profiles_at_target|].
    by apply set_profiles_Category, (document_lookup_Category w i).
  - intros ->. split; [done|]. simpl. apply lookup_insert_eq.
  - intros ->. done.
Qed.
End Operations.

Lemma first_with_id_head wanted name profiles (rest : list JSValue) :
  first_with_id wanted (Sample.category_object wanted name profiles :: rest) 0.
Proof.
  split; [|intros j y Hj; lia]. eexists. split; [reflexivity|].
  reflexivity.
Qed.

Lemma writeCategories_throws_witness :
  @writeCategories Sample.full (JArray [Sample.friends]) Sample.one_category
  = (Throw PersistenceError,
     called STORAGE_KEY (JSON_stringify (JArray [Sample.friends])) Sample.one_category).
Proof.
  exact (proj1 (proj2 (@writeCategories_throws Sample.full (JArray [Sample.friends])
                         Sample.one_category)) eq_refl eq_refl).
Defined.

Lemma addProfileToCategory_result_witness :
  @addProfileToCategory Sample.roomy (str "zzz") Sample.jane Sample.one_category
  = (Ok false, Sample.one_category).
Proof.
  apply (proj1 (@addProfileToCategory_result Sample.roomy (str "zzz") Sample.jane
                  Sample.one_category)).
  constructor; [|constructor]. vm_compute. discriminate.
Defined.

(** A category that is present, and still no [true]: the browser refuses
    the write, so the call throws and nothing is persisted. *)
Lemma addProfileToCategory_refused :
  document Sample.one_category = [Sample.friends] /\
  get (str "id") Sample.friends = JString (str "a") /\
  fst (@addProfileToCategory Sample.full (str "a") Sample.jane Sample.one_category)
  = Throw PersistenceError /\
  localStorage (snd (@addProfileToCategory Sample.full (str "a") Sample.jane
                       Sample.one_category))
  = localStorage Sample.one_category.
Proof. repeat split; vm_compute; reflexivity. Qed.

(** ** Frame and first-match properties *)

Lemma json_stable_assoc k props v :
  json_stable (JObject props) = true -> assoc k props = Some v -> json_stable v = true.
Proof.
  simpl. induction props as [|[k' x] props IH]; simpl; [done|].
  intros [Hx Hps]%andb_true_iff. case_bool_decide; [by intros [= <-]|auto].
Qed.

Lemma json_stable_profiles c :
  is_Category c = true -> json_stable c = true ->
  forallb json_stable (array_elements (get (str "profiles") c)) = true.
Proof.
  intros (props & i & n & ps & -> & _ & _ & Hp)%is_Category_inv Hs.
  simpl. rewrite Hp. simpl. exact (json_stable_assoc _ _ _ Hs Hp).
Qed.

Lemma forallb_delete {A} (f : A -> bool) (l : list A) k :
  forallb f l = true -> forallb f (delete k l) = true.
Proof.
  revert k. induction l as [|x l IH]; intros k; [done|].
  simpl. intros [Hx Hl]%andb_true_iff. destruct k as [|k]; simpl; [done|].
  by rewrite Hx, IH.
Qed.

(** A profile found by the callback is the first one with that [id]. *)
Lemma findIndex_profiles_first wanted (profiles : list JSValue) k :
  findIndex (id_equals wanted) profiles = Ok (Some k) ->
  first_with_id wanted profiles k.
Proof.
  assert (forall p b, id_equals wanted p = Ok b ->
                      strict_equals_string (get (str "id") p) wanted = b) as Hcb.
  { intros p b. by destruct p; intros [= <-]. }
  intros [(p & Hp & Hid) Hlt]%findIndex_Some. split.
  - exists p. split; [done|]. by apply strict_equals_string_true, Hcb.
  - intros j y Hj Hy. apply strict_equals_string_false, Hcb. eauto.
Qed.

Section Frame.
Context `{Platform}.

Lemma save_true (doc : list JSValue) (w w' : World) :
  Forall (fun c => is_Category c = true) doc ->
  save doc w = (Ok true, w') -> document w' = stored <$> doc.
Proof.
  intros Hdoc. unfold save. destruct (setItem_ok _ _ _); [|done].
  intros [= <-]. by apply document_written.
Qed.

(** What a read finds after a save, at a position that the operation did
    not touch. *)
Lemma saved_other i j elems (w w' : World) c' :
  save (with_profiles_at i elems (document w)) w = (Ok true, w') ->
  j <> i -> document w !! j = Some c' ->
  document w' !! j = Some (stored c') /\
  (json_stable c' = true -> document w' !! j = Some c').
Proof.
  intros Hsave Hj Hc'.
  apply save_true in Hsave; [|apply with_profiles_at_Category, document_Category].
  assert (document w' !! j = Some (stored c')) as Hread.
  { rewrite Hsave, list_lookup_fmap, with_profiles_at_other, Hc' by done. done. }
  split; [done|]. intros Hs. by rewrite Hread, json_stable_stored.
Qed.

Lemma saved_target i elems (w w' : World) c :
  save (with_profiles_at i elems (document w)) w = (Ok true, w') ->
  document w !! i = Some c ->
  exists c1, document w' !! i = Some c1 /\
             get (str "id") c1 = get (str "id") c /\
             get (str "name") c1 = get (str "name") c /\
             get (str "profiles") c1 = JArray (stored <$> elems).
Proof.
  intros Hsave Hc.
  apply save_true in Hsave; [|apply with_profiles_at_Category, document_Category].
  pose proof (document_lookup_Category _ _ _ Hc) as Hcat.
  destruct (set_profiles_Category elems c Hcat) as (Hcat' & Hid & Hname & Hps).
  destruct (stored_Category _ Hcat') as (_ & Hid' & Hname' & Hps').
  eexists. split.
  { rewrite Hsave, list_lookup_fmap, (with_profiles_at_target _ _ _ _ Hc). done. }
  rewrite Hid', Hname', Hps', Hid, Hname, Hps. done.
Qed.

Lemma saved_length i elems (w w' : World) :
  save (with_profiles_at i elems (document w)) w = (Ok true, w') ->
  length (document w') = length (document w).
Proof.
  intros Hsave.
  apply save_true in Hsave; [|apply with_profiles_at_Category, document_Category].
  by rewrite Hsave, length_fmap, with_profiles_at_length.
Qed.

(** C9.  After a successful [addProfileToCategory] or
    [removeProfileFromCategory] the document has as many categories as
    before, and every category but the first one with the given id sits at
    its position as JSON has written it back: with the same id and name,
    and unchanged altogether when it holds nothing that JSON cannot write
    as it is.  After a removal the target keeps its id and name, and its
    profiles are the former ones, in order, without the first profile that
    had the given id, again as JSON has written them back. *)
Theorem repository_frame (categoryId : jsstring) (w w' : World) :
  (forall profile,
     addProfileToCategory categoryId profile w = (Ok true, w') ->
     exists i c,
       first_with_id categoryId (document w) i /\ document w !! i = Some c /\
       length (document w') = length (document w) /\
       forall j c', j <> i -> document w !! j = Some c' ->
         exists c1, document w' !! j = Some c1 /\
                    get (str "id") c1 = get (str "id") c' /\
                    get (str "name") c1 = get (str "name") c' /\
                    c1 = stored c' /\
                    (json_stable c' = true -> c1 = c')) /\
  (forall profileId,
     removeProfileFromCategory categoryId profileId w = (Ok true, w') ->
     exists i c k,
       first_with_id categoryId (document w) i /\ document w !! i = Some c /\
       first_with_id profileId (array_elements (get (str "profiles") c)) k /\
       length (document w') = length (document w) /\
       (forall j c', j <> i -> document w !! j = Some c' ->
          exists c1, document w' !! j = Some c1 /\
                     get (str "id") c1 = get (str "id") c' /\
                     get (str "name") c1 = get (str "name") c' /\
                     c1 = stored c' /\
                     (json_stable c' = true -> c1 = c')) /\
       exists c1, document w' !! i = Some c1 /\
                  get (str "id") c1 = get (str "id") c /\
                  get (str "name") c1 = get (str "name") c /\
                  get (str "profiles") c1
                  = JArray (stored <$> delete k (array_elements (get (str "profiles") c))) /\
                  (json_stable c = true ->
                   get (str "profiles") c1
                   = JArray (delete k (array_elements (get (str "profiles") c))))).
Proof.
  assert (forall i elems,
            save (with_profiles_at i elems (document w)) w = (Ok true, w') ->
            forall j c', j <> i -> document w !! j = Some c' ->
              exists c1, document w' !! j = Some c1 /\
                         get (str "id") c1 = get (str "id") c' /\
                         get (str "name") c1 = get (str "name") c' /\
                         c1 = stored c' /\
                         (json_stable c' = true -> c1 = c')) as Hothers.
  { intros i elems Hsave j c' Hj Hc'.
    destruct (saved_other _ _ _ _ _ _ Hsave Hj Hc') as [Hread Hstable].
    pose proof (document_lookup_Category _ _ _ Hc') as Hcat.
    destruct (stored_Category _ Hcat) as (_ & Hid & Hname & _).
    exists (stored c'). repeat split; try done.
    intros Hs. by apply json_stable_stored. }
  split.
  - intros profile Hadd.
    destruct (first_with_id_cases categoryId w) as [Hno|(i & c & Hi & Hc)].
    { by rewrite (addProfileToCategory_missing _ _ _ Hno) in Hadd. }
    rewrite (addProfileToCategory_found _ _ _ _ _ Hi Hc) in Hadd.
    exists i, c. repeat split; try done; [apply Hi|apply Hi|..].
    + by eapply saved_length.
    + by eapply Hothers.
  - intros profileId Hrem.
    destruct (first_with_id_cases categoryId w) as [Hno|(i & c & Hi & Hc)].
    { by rewrite (removeProfileFromCategory_missing _ _ _ Hno) in Hrem. }
    rewrite (removeProfileFromCategory_found _ _ _ _ _ Hi Hc) in Hrem.
    simpl in Hrem.
    destruct (findIndex (id_equals profileId) _) as [[k|]|e] eqn:Hk; try done.
    exists i, c, k. split; [done|]. split; [done|].
    split; [by apply findIndex_profiles_first|].
    split; [by eapply saved_length|]. split; [by eapply Hothers|].
    destruct (saved_target _ _ _ _ _ Hrem Hc) as (c1 & Hc1 & Hid & Hname & Hps).
    exists c1. repeat split; try done.
    intros Hs. rewrite Hps. f_equal. apply stored_stable_list, forallb_delete.
    apply json_stable_profiles; [by eapply document_lookup_Category|done].
Qed.
End Frame.

Lemma repository_frame_witness :
  exists i c,
    first_with_id (str "a") (document Sample.tidy) i /\
    document Sample.tidy !! i = Some c /\
    length (document (snd (@addProfileToCategory Sample.roomy (str "a") Sample.jane
                             Sample.tidy)))
    = length (document Sample.tidy).
Proof.
  destruct (proj1 (@repository_frame Sample.roomy (str "a") Sample.tidy
                     (snd (@addProfileToCategory Sample.roomy (str "a") Sample.jane
                             Sample.tidy)))
              Sample.jane) as (i & c & Hi & Hc & Hlen & _).
  - vm_compute. reflexivity.
  - by exists i, c.
Defined.

(** A successful call that does not leave another category as it was: the
    whole document is rewritten, and the number that [1e999] denotes in the
    untouched category [b] comes back as [null]. *)
Lemma rewrite_alters_other_category :
  exists w',
    @addProfileToCategory Sample.roomy (str "a") Sample.jane Sample.two_categories
    = (Ok true, w') /\
    document Sample.two_categories !! 1%nat
    = Some (Sample.category_object (str "b") (str "Work") [Sample.infinity]) /\
    document w' !! 1%nat
    = Some (Sample.category_object (str "b") (str "Work") [JNull]) /\
    document w' !! 1%nat <> document Sample.two_categories !! 1%nat.
Proof.
  eexists. split; [vm_compute; reflexivity|].
  split; [vm_compute; reflexivity|].
  split; [vm_compute; reflexivity|]. vm_compute. discriminate.
Qed.

Section FirstMatch.
Context `{Platform}.

(** C10.  Let [c], at position [i], be the first category of the document
    with the given id, whatever comes after it.  A lookup by that id
    returns [c]: [findCategoryById] when the id is not blank,
    [getCurrentCategory] when it is not empty; otherwise the lookup answers
    [null] without a search.  [addProfileToCategory] and
    [removeProfileFromCategory] save a document that differs from the one
    read at position [i] only, where the profiles of [c] have been
    changed.  A removal searches the entries of [c] and no others: when
    the search ends without a match it returns [false], and when the search
    throws, on an entry that cannot be asked for its [id], it throws the
    same; either way nothing is written and no later category is looked
    at. *)
Theorem first_match_only (categoryId : jsstring) (w : World) (i : nat) (c : JSValue) :
  first_with_id categoryId (document w) i -> document w !! i = Some c ->
  let profiles := array_elements (get (str "profiles") c) in
  (if blank categoryId
   then findCategoryById (JString categoryId) w = (Ok None, w)
   else findCategoryById (JString categoryId) w = (Ok (Some c), w)) /\
  (query_category w = Some categoryId ->
   if truthy categoryId
   then getCurrentCategory w = (Ok (Some c), w)
   else getCurrentCategory w = (Ok None, w)) /\
  (forall profile, exists doc',
     addProfileToCategory categoryId profile w = save doc' w /\
     doc' !! i
     = Some (set_property (str "profiles") (JArray (profiles ++ [profile])) c) /\
     length doc' = length (document w) /\
     forall j, j <> i -> doc' !! j = document w !! j) /\
  (forall profileId,
     match findIndex (id_equals profileId) profiles with
     | Ok (Some k) =>
         exists doc',
           removeProfileFromCategory categoryId profileId w = save doc' w /\
           doc' !! i
           = Some (set_property (str "profiles") (JArray (delete k profiles)) c) /\
           length doc' = length (document w) /\
           forall j, j <> i -> doc' !! j = document w !! j
     | Ok None => removeProfileFromCategory categoryId profileId w = (Ok false, w)
     | Throw e => removeProfileFromCategory categoryId profileId w = (Throw e, w)
     end).
Proof.
  intros Hi Hc profiles. split; [|split; [|split]].
  - destruct (blank categoryId) eqn:Hb; [|by eapply findCategoryById_found].
    unfold findCategoryById. by rewrite trim_truthy, Hb.
  - intros Hq. destruct categoryId as [|a s]; simpl.
    + unfold getCurrentCategory, bind, URLSearchParams_get_category. by rewrite Hq.
    + by eapply getCurrentCategory_found.
  - intros profile. eexists. split; [by apply addProfileToCategory_found|].
    split; [by apply with_profiles_at_target|].
    split; [apply with_profiles_at_length|].
    intros j Hj. by apply with_profiles_at_other.
  - intros profileId.
    rewrite (removeProfileFromCategory_found _ _ _ _ _ Hi Hc). simpl.
    fold profiles. destruct (findIndex (id_equals profileId) profiles) as [[k|]|e];
      try done.
    eexists. split; [done|].
    split; [by apply with_profiles_at_target|].
    split; [apply with_profiles_at_length|].
    intros j Hj. by apply with_profiles_at_other.
Qed.
End FirstMatch.

Lemma first_match_only_witness :
  findCategoryById (JString (str "a")) Sample.duplicated
  = (Ok (Some (Sample.category_object (str "a") (str "First")
                 [Sample.stored_profile (str "p1") (str "Jane") (str "jdoe")])),
     Sample.duplicated).
Proof.
  refine (proj1 (@first_match_only Sample.roomy (str "a") Sample.duplicated 0 _ _ _)).
  - replace (document Sample.duplicated) with
      [Sample.category_object (str "a") (str "First")
         [Sample.stored_profile (str "p1") (str "Jane") (str "jdoe")];
       Sample.category_object (str "a") (str "Second")
         [Sample.stored_profile (str "p1") (str "Jane") (str "jdoe")]]
      by (vm_compute; reflexivity).
    apply first_with_id_head.
  - vm_compute. reflexivity.
Defined.

(** Two categories share the id made of one space, and [findCategoryById]
    returns neither: the guard on blank ids answers [null] before the
    document is searched. *)
Lemma findCategoryById_blank_id :
  document Sample.blank_ids
  = [Sample.category_object (str " ") (str "First") [];
     Sample.category_object (str " ") (str "Second") []] /\
  first_with_id (str " ") (document Sample.blank_ids) 0 /\
  findCategoryById (JString (str " ")) Sample.blank_ids
  = (Ok None, Sample.blank_ids).
Proof.
  assert (document Sample.blank_ids
          = [Sample.category_object (str " ") (str "First") [];
             Sample.category_object (str " ") (str "Second") []]) as Hdoc
      by (vm_compute; reflexivity).
  split; [exact Hdoc|]. split; [|vm_compute; reflexivity].
  rewrite Hdoc. apply first_with_id_head.
Qed.

(** ** [createCategory] *)

Lemma fresh_unallocated (h : gmap Ref HeapObject) : h !! fresh (dom h) = None.
Proof. apply not_elem_of_dom, is_fresh. Qed.

Section Create.
Context `{Platform}.

(** C6.  A blank name makes [createCategory] throw its [TypeError].
    Otherwise, given an array of profiles, the result carries the trimmed
    name, the identifier that [crypto.randomUUID] hands out for this call,
    and a reference to a newly allocated array with the elements of the
    given one: a different reference, so that later changes to the given
    array do not show in the category.  Nothing else in the heap changes,
    and [localStorage] is neither written nor asked to. *)
Theorem createCategory_result (name : jsstring) (w : World) :
  (blank name = true ->
   forall profiles, exists e w',
     createCategory (JString name) profiles w = (Throw e, w') /\
     is_ValidationError e = true /\
     localStorage w' = localStorage w /\ setItem_calls w' = setItem_calls w) /\
  (blank name = false ->
   forall r elems, heap w !! r = Some (HArray elems) ->
   exists c w',
     createCategory (JString name) (Some r) w = (Ok c, w') /\
     cat_name c = trim name /\
     cat_id c = randomUUID (uuid_count w) /\
     uuid_count w' = S (uuid_count w) /\
     heap w' !! cat_profiles c = Some (HArray elems) /\
     cat_profiles c <> r /\
     heap w !! cat_profiles c = None /\
     (forall r', r' <> cat_profiles c -> heap w' !! r' = heap w !! r') /\
     (forall elems', <[r := HArray elems']> (heap w') !! cat_profiles c
                     = Some (HArray elems)) /\
     localStorage w' = localStorage w /\ setItem_calls w' = setItem_calls w) /\
  (blank name = false ->
   exists c w',
     createCategory (JString name) None w = (Ok c, w') /\
     cat_name c = trim name /\
     cat_id c = randomUUID (uuid_count w) /\
     uuid_count w' = S (uuid_count w) /\
     heap w' !! cat_profiles c = Some (HArray []) /\
     heap w !! cat_profiles c = None /\
     localStorage w' = localStorage w /\ setItem_calls w' = setItem_calls w).
Proof.
  split; [|split].
  - intros Hb profiles.
    unfold createCategory, bind. rewrite trim_truthy, Hb.
    destruct profiles as [r|]; simpl; by do 2 eexists.
  - intros Hb r elems Hr.
    unfold createCategory, bind at 1, ret. rewrite trim_truthy, Hb. simpl.
    unfold bind, deref, crypto_randomUUID, alloc, ret. rewrite Hr. simpl.
    do 2 eexists. split; [reflexivity|]. simpl.
    pose proof (fresh_unallocated (heap w)) as Hfresh.
    assert (fresh (dom (heap w)) <> r) as Hne by (intros Heq; rewrite Heq in Hfresh; congruence).
    repeat split; try done.
    + apply lookup_insert_eq.
    + intros r' Hr'. by apply lookup_insert_ne.
    + intros elems'. rewrite lookup_insert_ne by done. apply lookup_insert_eq.
  - intros Hb.
    unfold createCategory, bind at 1, alloc. rewrite trim_truthy, Hb. simpl.
    unfold bind, deref, crypto_randomUUID, alloc, ret. simpl.
    rewrite lookup_insert_eq. simpl.
    do 2 eexists. split; [reflexivity|]. simpl.
    pose proof (fresh_unallocated (heap w)) as Hfresh.
    pose proof (fresh_unallocated (<[fresh (dom (heap w)) := HArray []]> (heap w)))
      as Hfresh2.
    repeat split; try done.
    + apply lookup_insert_eq.
    + apply lookup_insert_None in Hfresh2. tauto.
Qed.
End Create.

Lemma createCategory_result_witness :
  exists c w',
    @createCategory Sample.roomy (JString (str "  Friends ")) None (Sample.world_with ∅)
    = (Ok c, w') /\
    cat_name c = trim (str "  Friends ") /\
    cat_id c = Sample.sample_uuid 0 /\
    uuid_count w' = 1%nat /\
    heap w' !! cat_profiles c = Some (HArray []) /\
    heap (Sample.world_with ∅) !! cat_profiles c = None /\
    localStorage w' = localStorage (Sample.world_with ∅) /\
    setItem_calls w' = setItem_calls (Sample.world_with ∅).
Proof.
  exact (proj2 (proj2 (@createCategory_result Sample.roomy (str "  Friends ")
                         (Sample.world_with ∅))) eq_refl).
Defined.

(** ** Worked examples *)

Example normalize_profile_url :
  @normalizeInstagramUrl Sample.roomy (JString (str "https://www.instagram.com/jdoe/?x=1"))
  = Ok (Some {| username := str "jdoe"; url := str "https://instagram.com/jdoe" |}).
Proof. vm_compute. reflexivity. Qed.

Example normalize_upper_case_host :
  @normalizeInstagramUrl Sample.roomy (JString (str "HTTP://WWW.Instagram.COM/jdoe/posts#top"))
  = Ok (Some {| username := str "jdoe"; url := str "https://instagram.com/jdoe" |}).
Proof. vm_compute. reflexivity. Qed.

Example normalize_empty :
  @normalizeInstagramUrl Sample.roomy (JString []) = Ok None.
Proof. reflexivity. Qed.

Example normalize_other_site :
  @normalizeInstagramUrl Sample.roomy (JString (str "https://example.org/jdoe")) = Ok None.
Proof. vm_compute. reflexivity. Qed.

Example deep_link_jdoe :
  instaDeepLink (JString (str "jdoe"))
  = Ok {| appUrl := str "instagram://user?username=jdoe";
          webUrl := str "https://instagram.com/jdoe" |}.
Proof. vm_compute. reflexivity. Qed.

Example deep_link_escapes :
  instaDeepLink (JString (str "j doe/x"))
  = Ok {| appUrl := str "instagram://user?username=j%20doe%2Fx";
          webUrl := str "https://instagram.com/j%20doe%2Fx" |}.
Proof. vm_compute. reflexivity. Qed.

Example deep_link_empty :
  instaDeepLink (JString []) = Throw (TypeError "Username must be a non-empty string").
Proof. reflexivity. Qed.

Example read_json_object :
  readCategories (Sample.world_with {[ STORAGE_KEY := JSONText (JObject []) ]})
  = (Ok [], Sample.world_with {[ STORAGE_KEY := JSONText (JObject []) ]}).
Proof. vm_compute. reflexivity. Qed.

Example add_then_read :
  fst (readCategories
         (snd (@addProfileToCategory Sample.roomy (str "a") Sample.jane
                 Sample.one_category)))
  = Ok [Sample.category_object (str "a") (str "Friends")
          [Sample.stored_profile (str "p1") (str "Jane") (str "jdoe")]].
Proof. vm_compute. reflexivity. Qed.

Example remove_missing_profile :
  @removeProfileFromCategory Sample.roomy (str "a") (str "p9") Sample.tidy
  = (Ok false, Sample.tidy).
Proof. vm_compute. reflexivity. Qed.

Example remove_then_read :
  fst (readCategories
         (snd (@removeProfileFromCategory Sample.roomy (str "a") (str "p1") Sample.tidy)))
  = Ok [Sample.category_object (str "a") (str "Friends")
          [Sample.stored_profile (str "p2") (str "Joe") (str "joe")];
        Sample.category_object (str "b") (str "Work") []].
Proof. vm_compute. reflexivity. Qed.

(** * Further properties *)

(** ** Trimmed strings *)

Lemma trimStart_suffix (s : jsstring) :
  exists pre, s = pre ++ trimStart s /\ blank pre = true.
Proof.
  induction s as [|c s (pre & Hs & Hpre)]; simpl; [by exists []|].
  destruct (isWhiteSpace c) eqn:Hc.
  - exists (c :: pre). split; [simpl; congruence|]. simpl. by rewrite Hc.
  - by exists [].
Qed.

Lemma trimStart_fixed (s : jsstring) :
  match s with c :: _ => isWhiteSpace c = false | [] => True end ->
  trimStart s = s.
Proof. destruct s as [|c s]; simpl; [done|]. by intros ->. Qed.

(** A string that [trim] returns neither starts nor ends with white space. *)
Lemma trim_edges (s : jsstring) :
  match trim s with c :: _ => isWhiteSpace c = false | [] => True end /\
  match rev (trim s) with c :: _ => isWhiteSpace c = false | [] => True end.
Proof.
  unfold trim, trimEnd. rewrite rev_involutive.
  destruct (trimStart s) as [|c t] eqn:Ht; [done|].
  pose proof (trimStart_head _ _ _ Ht) as Hc.
  destruct (trimStart_suffix (rev (c :: t))) as (pre & Hrev & Hpre).
  destruct (trimStart (rev (c :: t))) as [|d u] eqn:Hu.
  { apply trimStart_nil in Hu. rewrite blank_rev in Hu. simpl in Hu.
    rewrite Hc in Hu. done. }
  split; [|by apply (trimStart_head _ _ _ Hu)].
  assert (c :: t = rev (d :: u) ++ rev pre) as Hct.
  { rewrite <- rev_app_distr, <- Hrev. by rewrite rev_involutive. }
  destruct (rev (d :: u)) as [|e v] eqn:Hv.
  { apply (f_equal (@rev N)) in Hv. rewrite rev_involutive in Hv. done. }
  simpl in Hct. by injection Hct as <- _.
Qed.

Lemma trim_idemp (s : jsstring) : trim (trim s) = trim s.
Proof.
  destruct (trim_edges s) as [Hhead Hlast].
  unfold trim at 1, trimEnd. rewrite (trimStart_fixed _ Hhead).
  rewrite (trimStart_fixed _ Hlast). apply rev_involutive.
Qed.

Lemma blank_trim (s : jsstring) : blank (trim s) = blank s.
Proof.
  pose proof (trim_truthy (trim s)) as H1. rewrite trim_idemp, trim_truthy in H1.
  by destruct (blank s), (blank (trim s)).
Qed.

(** ** [createProfile] *)

Section CreateProfile.
Context `{Platform}.

(** X1.  [createProfile] throws its [TypeError] exactly when the name or the
    username is blank, and then draws no identifier and changes nothing. *)
Theorem createProfile_validation (name username : jsstring)
    (imageDataUrl : option jsstring) (w : World) :
  if blank name || blank username
  then exists e, createProfile (JString name) (JString username) imageDataUrl w
                 = (Throw e, w) /\ is_ValidationError e = true
  else exists profile, createProfile (JString name) (JString username) imageDataUrl w
                       = (Ok profile, with_uuid_count (S (uuid_count w)) w).
Proof.
  unfold createProfile. rewrite !trim_truthy.
  destruct (blank name); simpl; [by eexists|].
  destruct (blank username); simpl; [by eexists|]. by eexists.
Qed.

(** X2.  What [createProfile] returns carries the identifier drawn for this call
    and a name and a username that are never blank and have no white space
    at either end; an image, when there is one, is a trimmed string that is
    not blank, and a blank image is left out as [undefined]. *)
Theorem createProfile_fields (name username : jsstring)
    (imageDataUrl : option jsstring) (w w' : World) (profile : JSValue) :
  createProfile (JString name) (JString username) imageDataUrl w = (Ok profile, w') ->
  get (str "id") profile = JString (randomUUID (uuid_count w)) /\
  (exists n, get (str "name") profile = JString n /\
             n = trim name /\ trim n = n /\ blank n = false) /\
  (exists u, get (str "username") profile = JString u /\
             u = trim username /\ trim u = u /\ blank u = false) /\
  match get (str "imageDataUrl") profile with
  | JString image =>
      exists given, imageDataUrl = Some given /\ image = trim given /\
                    trim image = image /\ blank image = false
  | JUndefined =>
      match imageDataUrl with Some given => blank given = true | None => True end
  | _ => False
  end.
Proof.
  unfold createProfile. rewrite !trim_truthy.
  destruct (blank name) eqn:Hn; simpl; [done|].
  destruct (blank username) eqn:Hu; simpl; [done|].
  unfold bind, crypto_randomUUID, ret. intros [= <- <-].
  split; [reflexivity|].
  split; [eexists; split; [reflexivity|]; by rewrite trim_idemp, blank_trim|].
  split; [eexists; split; [reflexivity|]; by rewrite trim_idemp, blank_trim|].
  cbn. destruct imageDataUrl as [given|]; [|done].
  rewrite trim_truthy. destruct (blank given) eqn:Hg; simpl; [done|].
  exists given. by rewrite trim_idemp, blank_trim.
Qed.
End CreateProfile.

Lemma createProfile_fields_witness :
  get (str "id")
    (JObject [(str "id", JString (Sample.sample_uuid 0));
              (str "name", JString (str "Jane"));
              (str "username", JString (str "jdoe"));
              (str "imageDataUrl", JUndefined)])
  = JString (Sample.sample_uuid 0).
Proof.
  exact (proj1 (@createProfile_fields Sample.roomy (str "  Jane ") (str "jdoe ")
                  (Some (str "  ")) (Sample.world_with ∅) _ _ eq_refl)).
Defined.

(** ** Deleting, and what a failed operation leaves behind *)

Lemma filter_length_all {A} (f : A -> bool) (l : list A) :
  length (List.filter f l) = length l -> List.filter f l = l.
Proof.
  assert (forall l', (length (List.filter f l') <= length l')%nat) as Hle.
  { induction l' as [|y l' IH]; simpl; [lia|]. destruct (f y); simpl; lia. }
  induction l as [|x l IH]; simpl; [done|].
  destruct (f x); simpl.
  - intros [= Hl]. by rewrite IH.
  - intros Hl. specialize (Hle l). lia.
Qed.

(** The categories that [deleteCategory] keeps. *)
Lemma kept_other_ids wanted (doc : list JSValue) :
  Forall (fun c => get (str "id") c <> JString wanted)
         (List.filter (fun c => negb (strict_equals_string (get (str "id") c) wanted)) doc).
Proof.
  apply Forall_forall. intros c Hc%list_elem_of_In%filter_In.
  destruct Hc as [_ Hc]. apply negb_true_iff in Hc.
  by apply strict_equals_string_false.
Qed.

Lemma kept_all wanted (doc : list JSValue) :
  Forall (fun c => get (str "id") c <> JString wanted) doc ->
  List.filter (fun c => negb (strict_equals_string (get (str "id") c) wanted)) doc = doc.
Proof.
  induction 1 as [|c doc Hc _ IH]; simpl; [done|].
  apply strict_equals_string_false in Hc. by rewrite Hc, IH.
Qed.

Lemma stored_keeps_ids wanted (doc : list JSValue) :
  Forall (fun c => is_Category c = true) doc ->
  Forall (fun c => get (str "id") c <> JString wanted) doc ->
  Forall (fun c => get (str "id") c <> JString wanted) (stored <$> doc).
Proof.
  intros Hcat Hid. apply Forall_fmap.
  induction Hcat as [|c doc Hc _ IH]; [done|].
  apply Forall_cons in Hid as [Hid1 Hid]. constructor; [|by apply IH].
  simpl. by destruct (stored_Category c Hc) as (_ & -> & _).
Qed.

Lemma filter_Category (f : JSValue -> bool) (doc : list JSValue) :
  Forall (fun c => is_Category c = true) doc ->
  Forall (fun c => is_Category c = true) (List.filter f doc).
Proof.
  rewrite !Forall_forall. intros Hdoc c Hc%list_elem_of_In%filter_In.
  apply Hdoc, list_elem_of_In. tauto.
Qed.

Section Delete.
Context `{Platform}.

Lemma deleteCategory_unfold categoryId w :
  deleteCategory categoryId w =
  let kept := List.filter
                (fun c => negb (strict_equals_string (get (str "id") c) categoryId))
                (document w) in
  if (length kept =? length (document w))%nat then (Ok false, w) else save kept w.
Proof.
  unfold deleteCategory, bind at 1. rewrite readCategories_document.
  unfold bind at 1, lift.
  rewrite filter_res_Category by apply document_Category. cbv zeta.
  destruct (_ =? _)%nat; [done|]. apply save_writeCategories.
Qed.

(** X3.  [deleteCategory] returns [false] and leaves the world as it was exactly
    when no category has the id.  When it returns [true], every category
    with that id is gone, duplicates included, and the others are read back
    in their order as JSON has written them; a lookup of the id then answers
    [null] and a second deletion returns [false]. *)
Theorem deleteCategory_result (categoryId : jsstring) (w w' : World) (r : Res bool) :
  deleteCategory categoryId w = (r, w') ->
  (r = Ok false <->
   Forall (fun c => get (str "id") c <> JString categoryId) (document w)) /\
  (r = Ok false -> w' = w) /\
  (r = Ok true ->
   document w'
   = stored <$> List.filter
                  (fun c => negb (strict_equals_string (get (str "id") c) categoryId))
                  (document w) /\
   Forall (fun c => get (str "id") c <> JString categoryId) (document w') /\
   findCategoryById (JString categoryId) w' = (Ok None, w') /\
   deleteCategory categoryId w' = (Ok false, w')).
Proof.
  rewrite deleteCategory_unfold. cbv zeta.
  set (kept := List.filter _ (document w)).
  pose proof (document_Category w) as Hcat.
  destruct (Nat.eqb_spec (length kept) (length (document w))) as [Hlen|Hlen].
  - intros [= <- <-]. apply filter_length_all in Hlen.
    repeat split; try done. intros _. rewrite <- Hlen. apply kept_other_ids.
  - intros Hsave.
    assert (r <> Ok false) as Hr.
    { unfold save in Hsave. destruct (setItem_ok _ _ _); by injection Hsave as <- _. }
    split; [|split; [done|]].
    { split; [done|]. intros Hall. apply kept_all in Hall.
      fold kept in Hall. by rewrite Hall in Hlen. }
    intros ->.
    assert (document w' = stored <$> kept) as Hdoc
        by (eapply save_true; [by apply filter_Category|done]).
    assert (Forall (fun c => get (str "id") c <> JString categoryId) (document w'))
      as Hgone.
    { rewrite Hdoc. apply stored_keeps_ids; [by apply filter_Category|].
      apply kept_other_ids. }
    repeat split; try done.
    + unfold findCategoryById.
      destruct (negb (truthy (trim categoryId))); [done|].
      unfold bind. rewrite readCategories_document. unfold lift.
      rewrite find_findIndex.
      apply findIndex_no_id in Hgone; [|apply document_Category]. by rewrite Hgone.
    + rewrite deleteCategory_unfold. cbv zeta. rewrite kept_all by done.
      by rewrite Nat.eqb_refl.
Qed.

(** X4.  Whatever [addProfileToCategory], [removeProfileFromCategory] and
    [deleteCategory] return or throw, [localStorage] is changed only by a
    call that returns [true], and [setItem] is called at most once. *)
Theorem repository_all_or_nothing (categoryId : jsstring) (w w' : World) (r : Res bool) :
  (exists profile, addProfileToCategory categoryId profile w = (r, w')) \/
  (exists profileId, removeProfileFromCategory categoryId profileId w = (r, w')) \/
  deleteCategory categoryId w = (r, w') ->
  (r <> Ok true -> localStorage w' = localStorage w) /\
  (r = Ok true ->
   exists doc, localStorage w' = <[STORAGE_KEY := JSON_stringify (JArray doc)]> (localStorage w)) /\
  (setItem_calls w' = setItem_calls w \/
   exists text, setItem_calls w' = setItem_calls w ++ [(STORAGE_KEY, text)]).
Proof.
  assert (forall doc, save doc w = (r, w') ->
            (r <> Ok true -> localStorage w' = localStorage w) /\
            (r = Ok true ->
             exists doc, localStorage w'
                         = <[STORAGE_KEY := JSON_stringify (JArray doc)]> (localStorage w)) /\
            (setItem_calls w' = setItem_calls w \/
             exists text, setItem_calls w' = setItem_calls w ++ [(STORAGE_KEY, text)]))
    as Hsave.
  { intros doc. unfold save. destruct (setItem_ok _ _ _); intros [= <- <-].
    - split; [done|]. split; [by exists doc|]. right. by eexists.
    - split; [done|]. split; [done|]. right. by eexists. }
  assert ((r, w') = (Ok false, w) \/ (exists e, (r, w') = (Throw e, w)) ->
            (r <> Ok true -> localStorage w' = localStorage w) /\
            (r = Ok true ->
             exists doc, localStorage w'
                         = <[STORAGE_KEY := JSON_stringify (JArray doc)]> (localStorage w)) /\
            (setItem_calls w' = setItem_calls w \/
             exists text, setItem_calls w' = setItem_calls w ++ [(STORAGE_KEY, text)]))
    as Hsame.
  { intros [[= -> ->]|(e & [= -> ->])]; (split; [done|split; [done|by left]]). }
  intros [(profile & Hop)|[(profileId & Hop)|Hop]].
  - destruct (first_with_id_cases categoryId w) as [Hno|(i & c & Hi & Hc)].
    + rewrite (addProfileToCategory_missing _ _ _ Hno) in Hop. apply Hsame. by left.
    + rewrite (addProfileToCategory_found _ _ _ _ _ Hi Hc) in Hop. by eapply Hsave.
  - destruct (first_with_id_cases categoryId w) as [Hno|(i & c & Hi & Hc)].
    + rewrite (removeProfileFromCategory_missing _ _ _ Hno) in Hop. apply Hsame. by left.
    + rewrite (removeProfileFromCategory_found _ _ _ _ _ Hi Hc) in Hop. simpl in Hop.
      destruct (findIndex (id_equals profileId) _) as [[k|]|e].
      * by eapply Hsave.
      * apply Hsame. by left.
      * apply Hsame. right. by exists e.
  - rewrite deleteCategory_unfold in Hop. cbv zeta in Hop.
    destruct (_ =? _)%nat; [apply Hsame; by left|by eapply Hsave].
Qed.

(** X5.  [addProfileToCategory] and [deleteCategory] throw nothing but the save
    error of [writeCategories], and the lookups throw nothing at all. *)
Theorem repository_exceptions (categoryId : jsstring) (w : World) :
  (forall profile e,
     fst (addProfileToCategory categoryId profile w) = Throw e -> e = PersistenceError) /\
  (forall e, fst (deleteCategory categoryId w) = Throw e -> e = PersistenceError) /\
  (forall v e, fst (findCategoryById v w) <> Throw e) /\
  (forall e, fst (getCurrentCategory w) <> Throw e).
Proof.
  assert (forall doc e, fst (save doc w) = Throw e -> e = PersistenceError) as Hsave.
  { intros doc e. unfold save. destruct (setItem_ok _ _ _); simpl; [done|].
    by intros [= <-]. }
  assert (forall wanted e,
            find (id_equals wanted) (document w) <> Throw e) as Hfind.
  { intros wanted e. rewrite find_findIndex.
    destruct (findIndex_Category_total wanted _ (document_Category w)) as [oi ->].
    done. }
  split; [|split; [|split]].
  - intros profile e.
    destruct (first_with_id_cases categoryId w) as [Hno|(i & c & Hi & Hc)].
    + by rewrite (addProfileToCategory_missing _ _ _ Hno).
    + rewrite (addProfileToCategory_found _ _ _ _ _ Hi Hc). apply Hsave.
  - intros e. rewrite deleteCategory_unfold. cbv zeta.
    destruct (_ =? _)%nat; [done|apply Hsave].
  - intros v e. unfold findCategoryById. destruct v; try done.
    destruct (negb (truthy (trim s))); [done|].
    unfold bind. rewrite readCategories_document. unfold lift. simpl. apply Hfind.
  - intros e. unfold getCurrentCategory, bind at 1, URLSearchParams_get_category.
    destruct (query_category w) as [q|]; [|done].
    destruct (negb (truthy q)); [done|].
    unfold bind. rewrite readCategories_document. unfold lift. simpl. apply Hfind.
Qed.
End Delete.

Lemma deleteCategory_result_witness :
  Forall (fun c => get (str "id") c <> JString (str "a"))
         (document (snd (@deleteCategory Sample.roomy (str "a") Sample.duplicated))).
Proof.
  refine (proj1 (proj2 (proj2 (proj2 (@deleteCategory_result Sample.roomy (str "a")
                                        Sample.duplicated _ (Ok true) _)) eq_refl))).
  vm_compute. reflexivity.
Defined.

Lemma repository_all_or_nothing_witness :
  localStorage (snd (@removeProfileFromCategory Sample.full (str "a") (str "p1") Sample.tidy))
  = localStorage Sample.tidy.
Proof.
  refine (proj1 (@repository_all_or_nothing Sample.full (str "a") Sample.tidy _
                   (Throw PersistenceError) _) _).
  - right. left. exists (str "p1"). vm_compute. reflexivity.
  - discriminate.
Defined.

Lemma repository_exceptions_witness : PersistenceError = PersistenceError.
Proof.
  exact (proj1 (@repository_exceptions Sample.full (str "a") Sample.one_category)
           Sample.jane PersistenceError eq_refl).
Defined.

(** ** Looking up and removing *)

Lemma find_sound wanted (doc : list JSValue) c :
  find (id_equals wanted) doc = Ok (Some c) ->
  c ∈ doc /\ get (str "id") c = JString wanted.
Proof.
  rewrite find_findIndex.
  destruct (findIndex (id_equals wanted) doc) as [[i|]|e] eqn:Hf; simpl; try done.
  intros [= Hc]. apply findIndex_profiles_first in Hf as [(x & Hx & Hid) _].
  rewrite Hx in Hc. injection Hc as ->.
  split; [by eapply list_elem_of_lookup_2|done].
Qed.

(** X6.  A lookup never changes the world, and a category that it returns is a
    category of the document with the id that was asked for; it answers
    [null] only when the id is blank (for [findCategoryById]), empty or
    missing (for [getCurrentCategory]), or when no category has it. *)
Theorem lookup_sound (w : World) :
  (forall v r w', findCategoryById v w = (r, w') ->
     w' = w /\
     match r with
     | Ok (Some c) => exists id, v = JString id /\ c ∈ document w /\
                                 get (str "id") c = JString id /\ is_Category c = true
     | Ok None => forall id, v = JString id -> blank id = false ->
                    Forall (fun c => get (str "id") c <> JString id) (document w)
     | Throw _ => False
     end) /\
  (forall r w', getCurrentCategory w = (r, w') ->
     w' = w /\
     match r with
     | Ok (Some c) => c ∈ document w /\ is_Category c = true /\
                      exists id, query_category w = Some id /\
                                 get (str "id") c = JString id
     | Ok None => forall id, query_category w = Some id -> id <> [] ->
                    Forall (fun c => get (str "id") c <> JString id) (document w)
     | Throw _ => False
     end).
Proof.
  assert (forall wanted,
            match find (id_equals wanted) (document w) with
            | Ok (Some c) => c ∈ document w /\ get (str "id") c = JString wanted /\
                             is_Category c = true
            | Ok None => Forall (fun c => get (str "id") c <> JString wanted) (document w)
            | Throw _ => False
            end) as Hfind.
  { intros wanted.
    destruct (find (id_equals wanted) (document w)) as [[c|]|e] eqn:Hf.
    - apply find_sound in Hf as [Hin Hid]. repeat split; try done.
      apply list_elem_of_lookup in Hin as [i Hi]. by eapply document_lookup_Category.
    - rewrite find_findIndex in Hf.
      destruct (findIndex (id_equals wanted) (document w)) as [[i|]|e] eqn:Hi;
        simpl in Hf; try done.
      + apply findIndex_first_with_id in Hi as [(x & Hx & _) _];
          [|apply document_Category]. by rewrite Hx in Hf.
      + by apply findIndex_no_id in Hi; [|apply document_Category].
    - rewrite find_findIndex in Hf.
      destruct (findIndex_Category_total wanted _ (document_Category w)) as [oi Hoi].
      by rewrite Hoi in Hf. }
  split.
  - intros v r w'. unfold findCategoryById.
    destruct v as [| | | |id| |]; try (by intros [= <- <-]).
    rewrite trim_truthy.
    destruct (blank id) eqn:Hb; simpl.
    { intros [= <- <-]. split; [done|]. intros id' [= <-]. congruence. }
    unfold bind. rewrite readCategories_document. unfold lift.
    intros [= <- <-]. split; [done|]. specialize (Hfind id).
    destruct (find (id_equals id) (document w)) as [[c|]|e]; try done.
    + exists id. tauto.
    + by intros id' [= <-] _.
  - intros r w'. unfold getCurrentCategory, bind at 1, URLSearchParams_get_category.
    destruct (query_category w) as [id|] eqn:Hq; [|by intros [= <- <-]].
    destruct id as [|a id]; simpl; [intros [= <- <-]; split; [done|]; by intros id' [= <-]|].
    unfold bind. rewrite readCategories_document. unfold lift.
    intros [= <- <-]. split; [done|]. specialize (Hfind (a :: id)).
    destruct (find (id_equals (a :: id)) (document w)) as [[c|]|e]; try done.
    + split; [tauto|]. split; [tauto|]. exists (a :: id). tauto.
    + by intros id' [= <-] _.
Qed.

Lemma lookup_sound_witness :
  exists id, JString (str "b") = JString id /\
             Sample.category_object (str "b") (str "Work") [] ∈ document Sample.tidy /\
             get (str "id") (Sample.category_object (str "b") (str "Work") []) = JString id /\
             is_Category (Sample.category_object (str "b") (str "Work") []) = true.
Proof.
  exact (proj2 (proj1 (lookup_sound Sample.tidy) (JString (str "b"))
                  (Ok (Some (Sample.category_object (str "b") (str "Work") [])))
                  Sample.tidy eq_refl)).
Defined.

Lemma id_equals_other wanted p :
  other_profile wanted p -> id_equals wanted p = Ok false.
Proof.
  intros (Hnull & Hundef & Hid). apply strict_equals_string_false in Hid.
  unfold id_equals. destruct p; try done; cbn [GetV res_bind]; by rewrite Hid.
Qed.

Lemma findIndex_others wanted (ps : list JSValue) :
  Forall (other_profile wanted) ps -> findIndex (id_equals wanted) ps = Ok None.
Proof.
  intros Hps. apply findIndex_None. eapply Forall_impl; [exact Hps|].
  intros p. apply id_equals_other.
Qed.

Lemma findIndex_app_others {A} (pred : A -> Res bool) (pre rest : list A) :
  Forall (fun x => pred x = Ok false) pre ->
  findIndex pred (pre ++ rest)
  = res_map (option_map (fun k => length pre + k)%nat) (findIndex pred rest).
Proof.
  induction 1 as [|x pre Hx _ IH]; simpl.
  - destruct (findIndex pred rest) as [[k|]|e]; done.
  - rewrite Hx, IH. destruct (findIndex pred rest) as [[k|]|e]; done.
Qed.

Section Remove.
Context `{Platform}.

(** X7.  When the first category with the given id holds no profile with the
    given id, [removeProfileFromCategory] returns [false] and leaves the
    world as it was, whatever later categories hold. *)
Theorem removeProfileFromCategory_no_profile (categoryId profileId : jsstring)
    (w : World) (i : nat) (c : JSValue) :
  first_with_id categoryId (document w) i -> document w !! i = Some c ->
  Forall (other_profile profileId) (array_elements (get (str "profiles") c)) ->
  removeProfileFromCategory categoryId profileId w = (Ok false, w).
Proof.
  intros Hi Hc Hps.
  rewrite (removeProfileFromCategory_found _ _ _ _ _ Hi Hc). simpl.
  by rewrite findIndex_others.
Qed.

(** X8.  A [null] among the profiles, ahead of any profile with the given id,
    makes [removeProfileFromCategory] throw a [TypeError] when it reads the
    [id] of that entry; nothing is written. *)
Theorem removeProfileFromCategory_null_entry (categoryId profileId : jsstring)
    (w : World) (i : nat) (c : JSValue) (before after : list JSValue) :
  first_with_id categoryId (document w) i -> document w !! i = Some c ->
  array_elements (get (str "profiles") c) = before ++ JNull :: after ->
  Forall (other_profile profileId) before ->
  exists message,
    removeProfileFromCategory categoryId profileId w = (Throw (TypeError message), w).
Proof.
  intros Hi Hc Hps Hbefore.
  rewrite (removeProfileFromCategory_found _ _ _ _ _ Hi Hc). simpl.
  rewrite Hps, findIndex_app_others.
  - simpl. by eexists.
  - eapply Forall_impl; [exact Hbefore|]. intros p. apply id_equals_other.
Qed.

Lemma add_read_back (categoryId : jsstring) (profile : JSValue) (w w' : World) :
  addProfileToCategory categoryId profile w = (Ok true, w') ->
  exists i c c',
    first_with_id categoryId (document w) i /\
    document w !! i = Some c /\ document w' !! i = Some c' /\
    get (str "id") c' = get (str "id") c /\
    get (str "name") c' = get (str "name") c /\
    get (str "profiles") c'
    = JArray ((stored <$> array_elements (get (str "profiles") c)) ++ [stored profile]).
Proof.
  intros Hadd.
  destruct (first_with_id_cases categoryId w) as [Hno|(i & c & Hi & Hc)].
  { by rewrite (addProfileToCategory_missing _ _ _ Hno) in Hadd. }
  rewrite (addProfileToCategory_found _ _ _ _ _ Hi Hc) in Hadd.
  destruct (saved_target _ _ _ _ _ Hadd Hc) as (c' & Hc' & Hid & Hname & Hps).
  exists i, c, c'. rewrite fmap_app in Hps. repeat split; try done; apply Hi.
Qed.

(** X9.  After a successful [addProfileToCategory] the first category with the
    given id is read back with its id and name and with one profile more:
    the former profiles, then the new one, each as JSON has written it. *)
Theorem addProfileToCategory_read_back (categoryId : jsstring) (profile : JSValue)
    (w w' : World) :
  addProfileToCategory categoryId profile w = (Ok true, w') ->
  exists i c c',
    first_with_id categoryId (document w) i /\
    document w !! i = Some c /\ document w' !! i = Some c' /\
    get (str "id") c' = get (str "id") c /\
    get (str "name") c' = get (str "name") c /\
    get (str "profiles") c'
    = JArray ((stored <$> array_elements (get (str "profiles") c)) ++ [stored profile]) /\
    length (array_elements (get (str "profiles") c'))
    = S (length (array_elements (get (str "profiles") c))).
Proof.
  intros (i & c & c' & Hi & Hc & Hc' & Hid & Hname & Hps)%add_read_back.
  exists i, c, c'. repeat split; try done; try apply Hi.
  rewrite Hps. simpl. rewrite length_app, length_fmap. simpl. lia.
Qed.
End Remove.

Lemma removeProfileFromCategory_no_profile_witness :
  @removeProfileFromCategory Sample.roomy (str "a") (str "p9") Sample.tidy
  = (Ok false, Sample.tidy).
Proof.
  refine (@removeProfileFromCategory_no_profile Sample.roomy (str "a") (str "p9")
            Sample.tidy 0 _ _ eq_refl _).
  - replace (document Sample.tidy) with
      [Sample.category_object (str "a") (str "Friends")
         [Sample.stored_profile (str "p1") (str "Jane") (str "jdoe");
          Sample.stored_profile (str "p2") (str "Joe") (str "joe")];
       Sample.category_object (str "b") (str "Work") []]
      by (vm_compute; reflexivity).
    apply first_with_id_head.
  - repeat constructor; try discriminate; vm_compute; discriminate.
Defined.

Lemma removeProfileFromCategory_null_entry_witness :
  exists message,
    @removeProfileFromCategory Sample.roomy (str "a") (str "p2") Sample.with_null
    = (Throw (TypeError message), Sample.with_null).
Proof.
  refine (@removeProfileFromCategory_null_entry Sample.roomy (str "a") (str "p2")
            Sample.with_null 0 _
            [Sample.stored_profile (str "p1") (str "Jane") (str "jdoe")]
            [Sample.stored_profile (str "p2") (str "Joe") (str "joe")] _ eq_refl eq_refl _).
  - replace (document Sample.with_null) with
      [Sample.category_object (str "a") (str "Friends")
         [Sample.stored_profile (str "p1") (str "Jane") (str "jdoe"); JNull;
          Sample.stored_profile (str "p2") (str "Joe") (str "joe")]]
      by (vm_compute; reflexivity).
    apply first_with_id_head.
  - repeat constructor; try discriminate; vm_compute; discriminate.
Defined.

Lemma addProfileToCategory_read_back_witness :
  exists i c c',
    first_with_id (str "a") (document Sample.tidy) i /\
    document Sample.tidy !! i = Some c /\
    document (snd (@addProfileToCategory Sample.roomy (str "a") Sample.jane Sample.tidy))
      !! i = Some c' /\
    length (array_elements (get (str "profiles") c'))
    = S (length (array_elements (get (str "profiles") c))).
Proof.
  destruct (@addProfileToCategory_read_back Sample.roomy (str "a") Sample.jane Sample.tidy
              (snd (@addProfileToCategory Sample.roomy (str "a") Sample.jane Sample.tidy)))
    as (i & c & c' & Hi & Hc & Hc' & _ & _ & _ & Hlen).
  - vm_compute. reflexivity.
  - by exists i, c, c'.
Defined.

(** ** Writing, then reading *)

Section WriteRead.
Context `{Platform}.

(** X10.  After [writeCategories] has stored an array, [readCategories] returns
    its elements as JSON has written them when all are category-shaped, and,
    when the array holds nothing that JSON alters, exactly its
    category-shaped elements, in order. *)
Theorem write_then_read (items : list JSValue) (w w' : World) :
  writeCategories (JArray items) w = (Ok tt, w') ->
  (Forall (fun c => is_Category c = true) items ->
   readCategories w' = (Ok (stored <$> items), w')) /\
  (forallb json_stable items = true ->
   readCategories w' = (Ok (List.filter is_Category items), w')).
Proof.
  rewrite writeCategories_unfold. simpl.
  destruct (setItem_ok _ _ _); [|done]. intros [= <-].
  rewrite readCategories_document. split.
  - intros Hitems. by rewrite document_written.
  - intros Hs. unfold document, written. simpl. rewrite lookup_insert_eq.
    unfold JSON_stringify. rewrite serialize_array. cbn beta iota.
    by rewrite stored_stable_list.
Qed.
End WriteRead.

Lemma write_then_read_witness :
  readCategories (snd (@writeCategories Sample.roomy
                         (JArray [Sample.friends; JString (str "junk")])
                         (Sample.world_with ∅)))
  = (Ok [Sample.friends],
     snd (@writeCategories Sample.roomy (JArray [Sample.friends; JString (str "junk")])
            (Sample.world_with ∅))).
Proof.
  exact (proj2 (@write_then_read Sample.roomy [Sample.friends; JString (str "junk")]
                  (Sample.world_with ∅) _ eq_refl) eq_refl).
Defined.

(** ** Adding what [createProfile] made, and taking it away again *)

Lemma serialize_props_set_assoc k x x' v props :
  assoc k props = Some v -> is_Some (serialize v) -> serialize x = Some x' ->
  serialize_props (set_assoc k x props) = set_assoc k x' (serialize_props props).
Proof.
  intros Hk [v' Hv] Hx.
  induction props as [|[k' y] props IH]; simpl in *; [done|].
  case_bool_decide as Hkk.
  - injection Hk as ->. simpl. rewrite Hx, Hv. simpl. by rewrite bool_decide_true.
  - simpl. destruct (serialize y) as [y'|]; simpl.
    + rewrite bool_decide_false by done. by rewrite IH.
    + by apply IH.
Qed.

Lemma stored_set_profiles elems c :
  is_Category c = true ->
  stored (set_property (str "profiles") (JArray elems) c)
  = set_property (str "profiles") (JArray (stored <$> elems)) (stored c).
Proof.
  intros (props & i & n & ps & -> & _ & _ & Hp)%is_Category_inv.
  unfold stored at 1 3. simpl set_property. rewrite !serialize_object. simpl.
  f_equal. eapply serialize_props_set_assoc; [exact Hp|done|apply serialize_array].
Qed.

Lemma set_assoc_twice k x y props :
  set_assoc k x (set_assoc k y props) = set_assoc k x props.
Proof.
  induction props as [|[k' v] props IH]; simpl; [done|].
  case_bool_decide as Hk; simpl.
  - by rewrite bool_decide_true.
  - rewrite bool_decide_false by done. by rewrite IH.
Qed.

Lemma set_assoc_same k v props :
  assoc k props = Some v -> set_assoc k v props = props.
Proof.
  induction props as [|[k' y] props IH]; simpl; [done|].
  case_bool_decide as Hk; [by intros [= ->]|]. intros Hv. by rewrite IH.
Qed.

Lemma set_profiles_back elems c :
  is_Category c = true ->
  set_property (str "profiles") (get (str "profiles") c)
    (set_property (str "profiles") (JArray elems) c) = c.
Proof.
  intros (props & i & n & ps & -> & _ & _ & Hp)%is_Category_inv.
  simpl. rewrite Hp. simpl. by rewrite set_assoc_twice, set_assoc_same.
Qed.

Lemma delete_last {A} (l : list A) x : delete (length l) (l ++ [x]) = l.
Proof. induction l as [|y l IH]; simpl; [done|]. by rewrite IH. Qed.

Lemma document_with_uuid_count n w : document (with_uuid_count n w) = document w.
Proof. reflexivity. Qed.

(** The stored image of a document whose categories JSON leaves alone, after
    the profiles of one of them have been replaced. *)
Lemma stored_with_profiles_at i elems (doc : list JSValue) :
  Forall (fun c => is_Category c = true) doc ->
  forallb json_stable doc = true ->
  stored <$> with_profiles_at i elems doc = with_profiles_at i (stored <$> elems) doc.
Proof.
  intros Hcat Hs. apply list_eq. intros j.
  rewrite list_lookup_fmap. unfold with_profiles_at. rewrite !list_lookup_alter.
  assert (forall c, doc !! j = Some c -> is_Category c = true /\ stored c = c) as Hj.
  { intros c Hc. split; [exact (Forall_lookup_1 _ _ _ _ Hcat Hc)|].
    apply json_stable_stored. rewrite forallb_forall in Hs.
    apply Hs, list_elem_of_In. by eapply list_elem_of_lookup_2. }
  destruct (decide (i = j)) as [->|_].
  - destruct (doc !! j) as [c|] eqn:Hc; simpl; [|done].
    destruct (Hj c eq_refl) as [Hcat' Hst]. by rewrite stored_set_profiles, Hst.
  - destruct (doc !! j) as [c|] eqn:Hc; simpl; [|done].
    by destruct (Hj c eq_refl) as [_ ->].
Qed.

Section AddRemove.
Context `{Platform}.

(** X11.  A profile made by [createProfile] and added to a category is read back
    as the last profile of that category, with the id drawn for it, the
    trimmed name and username, and the trimmed image when one was given; the
    [imageDataUrl: undefined] of a profile without image is not stored. *)
Theorem created_profile_read_back (name username categoryId : jsstring)
    (imageDataUrl : option jsstring) (profile : JSValue) (w w1 w2 : World) :
  createProfile (JString name) (JString username) imageDataUrl w = (Ok profile, w1) ->
  addProfileToCategory categoryId profile w1 = (Ok true, w2) ->
  exists i c c',
    first_with_id categoryId (document w) i /\
    document w !! i = Some c /\ document w2 !! i = Some c' /\
    get (str "profiles") c'
    = JArray ((stored <$> array_elements (get (str "profiles") c)) ++
              [JObject ([(str "id", JString (randomUUID (uuid_count w)));
                         (str "name", JString (trim name));
                         (str "username", JString (trim username))] ++
                        match imageDataUrl with
                        | Some given =>
                            if blank given then []
                            else [(str "imageDataUrl", JString (trim given))]
                        | None => []
                        end)]).
Proof.
  intros Hcreate Hadd.
  assert (w1 = with_uuid_count (S (uuid_count w)) w /\
          stored profile
          = JObject ([(str "id", JString (randomUUID (uuid_count w)));
                      (str "name", JString (trim name));
                      (str "username", JString (trim username))] ++
                     match imageDataUrl with
                     | Some given =>
                         if blank given then []
                         else [(str "imageDataUrl", JString (trim given))]
                     | None => []
                     end)) as [-> Hstored].
  { revert Hcreate. unfold createProfile. rewrite !trim_truthy.
    destruct (blank name); simpl; [done|].
    destruct (blank username); simpl; [done|].
    unfold bind, crypto_randomUUID, ret. intros [= <- <-]. split; [done|].
    destruct imageDataUrl as [given|]; [|done].
    rewrite trim_truthy. by destruct (blank given). }
  destruct (add_read_back _ _ _ _ Hadd)
    as (i & c & c' & Hi & Hc & Hc' & _ & _ & Hps).
  rewrite document_with_uuid_count in Hi, Hc.
  exists i, c, c'. by rewrite <- Hstored.
Qed.

(** X12.  Adding a profile and then removing it by its id gives back the document
    that was there before, provided that the document holds nothing that
    JSON alters and that every entry the category already had can be asked
    for its [id], being neither [null] nor [undefined], and has another
    one.  The removal then returns [true] or throws the save error. *)
Theorem add_then_remove (categoryId profileId : jsstring) (profile : JSValue)
    (w w1 w2 : World) (i : nat) (c : JSValue) (r : Res bool) :
  first_with_id categoryId (document w) i -> document w !! i = Some c ->
  forallb json_stable (document w) = true ->
  Forall (other_profile profileId) (array_elements (get (str "profiles") c)) ->
  get (str "id") (stored profile) = JString profileId ->
  addProfileToCategory categoryId profile w = (Ok true, w1) ->
  removeProfileFromCategory categoryId profileId w1 = (r, w2) ->
  (r = Ok true \/ r = Throw PersistenceError) /\
  (r = Ok true -> document w2 = document w).
Proof.
  intros Hi Hc Hs Hothers Hpid Hadd Hrem.
  pose proof (document_Category w) as Hcat.
  pose proof (document_lookup_Category _ _ _ Hc) as Hccat.
  set (ps := array_elements (get (str "profiles") c)) in *.
  assert (get (str "profiles") c = JArray ps) as Hps.
  { subst ps. by destruct (is_Category_inv c Hccat)
      as (props & ? & ? & ? & -> & _ & _ & Hp); simpl; rewrite Hp. }
  assert (stored <$> ps = ps) as Hps_stable.
  { apply stored_stable_list. subst ps. apply json_stable_profiles; [done|].
    rewrite forallb_forall in Hs. apply Hs, list_elem_of_In.
    by eapply list_elem_of_lookup_2. }
  (* the document after the addition *)
  rewrite (addProfileToCategory_found _ _ _ _ _ Hi Hc) in Hadd. fold ps in Hadd.
  apply save_true in Hadd; [|by apply with_profiles_at_Category].
  rewrite stored_with_profiles_at in Hadd by done.
  rewrite fmap_app, Hps_stable in Hadd. simpl in Hadd.
  set (c1 := set_property (str "profiles") (JArray (ps ++ [stored profile])) c).
  assert (document w1 !! i = Some c1) as Hc1
      by (rewrite Hadd; by apply with_profiles_at_target).
  destruct (set_profiles_Category (ps ++ [stored profile]) c Hccat)
    as (Hc1cat & Hid1 & _ & Hps1). fold c1 in Hc1cat, Hid1, Hps1.
  assert (first_with_id categoryId (document w1) i) as Hi1.
  { destruct Hi as [(x & Hx & Hxid) Hlt]. rewrite Hc in Hx. injection Hx as <-.
    split; [exists c1; split; [done|congruence]|].
    intros j y Hj Hy. rewrite Hadd, with_profiles_at_other in Hy by lia. eauto. }
  (* the removal *)
  rewrite (removeProfileFromCategory_found _ _ _ _ _ Hi1 Hc1) in Hrem.
  rewrite Hps1 in Hrem. simpl in Hrem.
  assert (id_equals profileId (stored profile) = Ok true) as Hfound.
  { unfold id_equals. destruct (stored profile); try done.
    cbn [GetV res_bind]. rewrite Hpid. simpl. by rewrite bool_decide_true. }
  rewrite findIndex_app_others in Hrem.
  2:{ eapply Forall_impl; [exact Hothers|]. intros p. apply id_equals_other. }
  simpl in Hrem. rewrite Hfound in Hrem. simpl in Hrem.
  rewrite Nat.add_0_r, delete_last in Hrem.
  assert (with_profiles_at i ps (document w1) = document w) as Hback.
  { rewrite Hadd. apply list_eq. intros j. unfold with_profiles_at.
    destruct (decide (i = j)) as [<-|Hne].
    - rewrite !list_lookup_alter_eq, Hc. simpl. f_equal.
      rewrite <- Hps. by apply set_profiles_back.
    - by rewrite !list_lookup_alter_ne. }
  rewrite Hback in Hrem. unfold save in Hrem.
  destruct (setItem_ok _ _ _); injection Hrem as <- <-.
  - split; [by left|]. intros _. rewrite document_written by done.
    by apply stored_stable_list.
  - split; [by right|done].
Qed.
End AddRemove.

Lemma created_profile_read_back_witness :
  exists i c c',
    first_with_id (str "a") (document Sample.one_category) i /\
    document Sample.one_category !! i = Some c /\
    document
      (snd (@addProfileToCategory Sample.roomy (str "a")
              (Sample.profile_object (Sample.sample_uuid 0) (str "Jane") (str "jdoe"))
              (with_uuid_count 1 Sample.one_category))) !! i = Some c' /\
    get (str "profiles") c'
    = JArray ((stored <$> array_elements (get (str "profiles") c)) ++
              [JObject [(str "id", JString (Sample.sample_uuid 0));
                        (str "name", JString (str "Jane"));
                        (str "username", JString (str "jdoe"))]]).
Proof.
  refine (@created_profile_read_back Sample.roomy (str " Jane") (str "jdoe ") (str "a")
            None _ Sample.one_category _ _ eq_refl _).
  vm_compute. reflexivity.
Defined.

Lemma add_then_remove_witness :
  document
    (snd (@removeProfileFromCategory Sample.roomy (str "a") (str "p3")
            (snd (@addProfileToCategory Sample.roomy (str "a")
                    (Sample.profile_object (str "p3") (str "Ann") (str "ann"))
                    Sample.tidy))))
  = document Sample.tidy.
Proof.
  refine (proj2 (@add_then_remove Sample.roomy (str "a") (str "p3")
                   (Sample.profile_object (str "p3") (str "Ann") (str "ann"))
                   Sample.tidy _ _ 0 _ (Ok true) _ eq_refl _ _ _ _ _) eq_refl).
  - replace (document Sample.tidy) with
      [Sample.category_object (str "a") (str "Friends")
         [Sample.stored_profile (str "p1") (str "Jane") (str "jdoe");
          Sample.stored_profile (str "p2") (str "Joe") (str "joe")];
       Sample.category_object (str "b") (str "Work") []]
      by (vm_compute; reflexivity).
    apply first_with_id_head.
  - vm_compute. reflexivity.
  - repeat constructor; try discriminate; vm_compute; discriminate.
  - vm_compute. reflexivity.
  - vm_compute. reflexivity.
  - vm_compute. reflexivity.
Defined.

(** ** The canonical URL *)

Lemma split_segments sep (s : jsstring) :
  Forall (fun seg => forallb (fun c => negb (c =? sep)) seg = true) (split sep s).
Proof.
  induction s as [|c s IH]; simpl; [by repeat constructor|].
  destruct (N.eqb_spec c sep) as [->|Hne].
  - by constructor.
  - destruct (split sep s) as [|seg rest]; [repeat constructor; simpl|].
    + by rewrite (proj2 (N.eqb_neq c sep) Hne).
    + apply Forall_cons in IH as [Hseg Hrest]. constructor; [|done].
      simpl. by rewrite (proj2 (N.eqb_neq c sep) Hne).
Qed.

Lemma first_segment_no_slash (path seg : jsstring) :
  first_segment path = Some seg ->
  forallb (fun c => negb (c =? 0x2F)) seg = true /\ seg <> [].
Proof.
  unfold first_segment. intros Hhead.
  assert (In seg (List.filter truthy (split 47 path))) as Hin.
  { destruct (List.filter truthy (split 47 path)); [done|].
    injection Hhead as ->. by left. }
  apply filter_In in Hin as [Hin Hne]. split; [|by intros ->].
  pose proof (split_segments 47 path) as Hall. rewrite Forall_forall in Hall.
  by apply Hall, list_elem_of_In.
Qed.

Lemma first_segment_of_canonical (seg : jsstring) :
  forallb (fun c => negb (c =? 0x2F)) seg = true -> seg <> [] ->
  first_segment (0x2F :: seg) = Some seg.
Proof.
  intros Hseg Hne. unfold first_segment. simpl.
  rewrite (split_one_segment _ _ Hseg). simpl. by destruct seg.
Qed.

Lemma uriUnescaped_visible c : uriUnescaped c = true -> 0x21 <= c.
Proof.
  unfold uriUnescaped. intros Hc. apply orb_true_iff in Hc as [Hc|Hc].
  - revert Hc. unfold isAlnum. cmp_cases.
  - apply bool_decide_eq_true in Hc.
    let l := eval vm_compute in (str "-_.!~*'()") in
    change (str "-_.!~*'()") with l in Hc.
    repeat (apply elem_of_cons in Hc as [->|Hc]; [done|]).
    by apply elem_of_nil in Hc.
Qed.

Lemma uriUnescaped_not_space c : uriUnescaped c = true -> isWhiteSpace c = false.
Proof.
  intros Hc. pose proof (uriUnescaped_ascii c Hc) as Hhi.
  pose proof (uriUnescaped_visible c Hc) as Hlo. unfold isWhiteSpace.
  repeat match goal with
         | |- context [c =? ?k] => rewrite (proj2 (N.eqb_neq c k)) by lia
         end.
  rewrite (proj2 (N.leb_gt 0x2000 c)) by lia. reflexivity.
Qed.

Section Canonical.
Context `{Platform}.

Lemma normalizeInstagramUrl_Some (raw : jsstring) (r : NormalizedInstagramUrl) :
  normalizeInstagramUrl (JString raw) = Ok (Some r) ->
  first_segment_of_some_path (username r) /\
  url r = str "https://instagram.com/" ++ username r.
Proof.
  rewrite normalizeInstagramUrl_unfold. intros [= Hr].
  destruct (blank raw); [done|].
  destruct (URL_new raw) as [u|e]; [|done].
  destruct (test_suffix_i _ _); [|done].
  destruct (first_segment (pathname u)) as [seg|] eqn:Hseg; [|done].
  injection Hr as <-. split; [by exists (pathname u)|done].
Qed.

(** X13.  The username that [normalizeInstagramUrl] returns is not empty and holds
    no slash, so the returned url has that username as its only path
    segment: whenever [new URL] reads the returned url as the host
    [instagram.com] with the path [/username], normalising the returned url
    gives the same result again. *)
Theorem normalizeInstagramUrl_canonical (raw : jsstring) (r : NormalizedInstagramUrl) :
  normalizeInstagramUrl (JString raw) = Ok (Some r) ->
  forallb (fun c => negb (c =? 0x2F)) (username r) = true /\
  username r <> [] /\
  forall u', URL_new (url r) = Ok u' ->
             hostname u' = str "instagram.com" ->
             pathname u' = 0x2F :: username r ->
             normalizeInstagramUrl (JString (url r)) = Ok (Some r).
Proof.
  intros Hr.
  destruct (normalizeInstagramUrl_Some _ _ Hr) as [(path & Hseg) Hurl].
  apply first_segment_no_slash in Hseg as [Hslash Hne].
  split; [done|]. split; [done|].
  intros u' Hu' Hhost Hpath.
  rewrite normalizeInstagramUrl_unfold, Hu', Hhost, Hpath.
  rewrite (first_segment_of_canonical _ Hslash Hne).
  assert (blank (url r) = false) as ->.
  { rewrite Hurl.
    let l := eval vm_compute in (str "https://instagram.com/") in
    change (str "https://instagram.com/") with l.
    reflexivity. }
  assert (test_suffix_i (str "instagram.com")
            (replace_prefix (str "www.") (str "instagram.com")) = true) as ->
      by (vm_compute; reflexivity).
  simpl. do 2 f_equal. destruct r as [un ur]. simpl in *. by rewrite Hurl.
Qed.

(** X14.  For a username of unreserved characters the two helpers meet: the web
    link that [instaDeepLink] builds for the username returned by
    [normalizeInstagramUrl] is the url returned with it. *)
Theorem deep_link_of_normalized (raw : jsstring) (r : NormalizedInstagramUrl) :
  normalizeInstagramUrl (JString raw) = Ok (Some r) ->
  forallb uriUnescaped (username r) = true ->
  instaDeepLink (JString (username r))
  = Ok {| appUrl := str "instagram://user?username=" ++ username r;
          webUrl := url r |}.
Proof.
  intros Hr Hun.
  destruct (normalizeInstagramUrl_Some _ _ Hr) as [(path & Hseg) Hurl].
  apply first_segment_no_slash in Hseg as [_ Hne].
  unfold instaDeepLink. rewrite trim_truthy.
  assert (blank (username r) = false) as ->.
  { destruct (username r) as [|c s]; [done|]. simpl in *.
    apply andb_true_iff in Hun as [Hc _]. by rewrite (uriUnescaped_not_space c Hc). }
  simpl. rewrite encodeURIComponent_unescaped by done. simpl. by rewrite Hurl.
Qed.

(** X15.  The copies in [src/app.js] agree with [src/utils.ts] wherever the guards
    of the latter let the input through: on every string that is not blank,
    the two [normalizeInstagramUrl] return the same, and so do the two
    [instaDeepLink]. *)
Theorem app_url_helpers_agree (s : jsstring) :
  blank s = false ->
  App.normalizeInstagramUrl s = normalizeInstagramUrl (JString s) /\
  App.instaDeepLink s = instaDeepLink (JString s).
Proof.
  intros Hb. split.
  - by rewrite app_normalizeInstagramUrl_unfold, normalizeInstagramUrl_unfold, Hb.
  - unfold App.instaDeepLink, instaDeepLink. rewrite trim_truthy, Hb. simpl.
    by destruct (encodeURIComponent s).
Qed.
End Canonical.

Lemma normalizeInstagramUrl_canonical_witness :
  @normalizeInstagramUrl Sample.roomy (JString (str "https://instagram.com/jdoe"))
  = Ok (Some {| username := str "jdoe"; url := str "https://instagram.com/jdoe" |}).
Proof.
  refine (proj2 (proj2 (@normalizeInstagramUrl_canonical Sample.roomy
                          (str "http://www.instagram.com/jdoe/posts?x=1")
                          {| username := str "jdoe";
                             url := str "https://instagram.com/jdoe" |} _)) _ _ _ _).
  - vm_compute. reflexivity.
  - vm_compute. reflexivity.
  - reflexivity.
  - reflexivity.
Defined.

Lemma deep_link_of_normalized_witness :
  instaDeepLink (JString (str "jdoe"))
  = Ok {| appUrl := str "instagram://user?username=" ++ str "jdoe";
          webUrl := str "https://instagram.com/jdoe" |}.
Proof.
  refine (@deep_link_of_normalized Sample.roomy
            (str "http://www.instagram.com/jdoe/posts?x=1")
            {| username := str "jdoe"; url := str "https://instagram.com/jdoe" |} _ _).
  - vm_compute. reflexivity.
  - vm_compute. reflexivity.
Defined.

Lemma app_url_helpers_agree_witness :
  @App.normalizeInstagramUrl Sample.roomy (str "https://instagram.com/jdoe")
  = @normalizeInstagramUrl Sample.roomy (JString (str "https://instagram.com/jdoe")).
Proof.
  exact (proj1 (@app_url_helpers_agree Sample.roomy (str "https://instagram.com/jdoe")
                  eq_refl)).
Defined.

(** ** The store helpers of [src/app.js] *)

Section AppStore.
Context `{Platform}.

(** X16.  On an array the [writeCategories] of [src/app.js] does to the world
    what the one of [src/utils.ts] does and succeeds when it does; a refused
    write comes out as the browser's own error instead of the save error.
    When every element of the stored array is category-shaped, the two
    [getCurrentCategory] return the same. *)
Theorem app_store_helpers_agree (items : list JSValue) (w : World) :
  snd (App.writeCategories (JArray items) w) = snd (writeCategories (JArray items) w) /\
  (fst (App.writeCategories (JArray items) w) = Ok tt /\
   fst (writeCategories (JArray items) w) = Ok tt \/
   fst (App.writeCategories (JArray items) w) = Throw QuotaExceededError /\
   fst (writeCategories (JArray items) w) = Throw PersistenceError) /\
  (localStorage w !! STORAGE_KEY = Some (JSONText (JArray items)) ->
   Forall (fun c => is_Category c = true) items ->
   App.getCurrentCategory w = getCurrentCategory w).
Proof.
  rewrite writeCategories_unfold. unfold App.writeCategories, localStorage_setItem.
  change App.STORAGE_KEY with STORAGE_KEY. simpl.
  split; [by destruct (setItem_ok _ _ _)|].
  split; [destruct (setItem_ok _ _ _); [by left|by right]|].
  intros Hslot Hitems.
  unfold App.getCurrentCategory, getCurrentCategory, bind at 1 3,
    URLSearchParams_get_category.
  destruct (query_category w) as [q|]; [|done].
  destruct (negb (truthy q)); [done|].
  unfold bind. rewrite readCategories_document, app_readCategories_slot.
  unfold document. rewrite Hslot. f_equal.
  assert (List.filter is_Category items = items) as ->; [|done].
  clear Hslot. induction Hitems as [|c items Hc _ IH]; simpl; [done|].
  by rewrite Hc, IH.
Qed.
End AppStore.

Lemma app_store_helpers_agree_witness :
  App.getCurrentCategory Sample.tidy = getCurrentCategory Sample.tidy.
Proof.
  refine (proj2 (proj2 (@app_store_helpers_agree Sample.roomy _ Sample.tidy)) _ _).
  - vm_compute. reflexivity.
  - repeat constructor.
Defined.

(** ** Fetching a profile and its image *)

Section Fetch.
Context `{Network}.

(** X17.  [fetchInstagramProfile] rejects with its [TypeError] for a blank
    username and never rejects for any other: it stays pending exactly when
    the request or the reading of the body never settles, and otherwise
    resolves to a record whose username is truthy, whose name is neither
    [null] nor [undefined], and whose image is not [undefined]. *)
Theorem fetchInstagramProfile_settles (name : jsstring) :
  if blank name
  then exists e, fetchInstagramProfile (JString name) = Rejected e /\
                 is_ValidationError e = true
  else
    let request := fetch (str "https://www.instagram.com/" ++ name ++ str "/?__a=1&__d=dis") in
    (forall e, fetchInstagramProfile (JString name) <> Rejected e) /\
    (fetchInstagramProfile (JString name) = Pending <->
     request = Pending \/
     exists response, request = Fulfilled response /\ ok response = true /\
                      json response = Pending) /\
    (forall r, fetchInstagramProfile (JString name) = Fulfilled r ->
       ToBoolean (profile_username r) = true /\
       profile_name r <> JNull /\ profile_name r <> JUndefined /\
       profile_imageUrl r <> JUndefined).
Proof.
  unfold fetchInstagramProfile. rewrite trim_truthy.
  destruct (blank name) eqn:Hb; simpl; [by eexists|].
  assert (truthy name = true) as Hname by (by destruct name).
  set (request := fetch _).
  (* a body that has settled on the fallback or on a well-formed record *)
  assert (forall r : InstagramProfileData,
            ~ (request = Pending \/
               exists response, request = Fulfilled response /\ ok response = true /\
                                json response = Pending) ->
            ToBoolean (profile_username r) = true /\
            profile_name r <> JNull /\ profile_name r <> JUndefined /\
            profile_imageUrl r <> JUndefined ->
            (forall e, Fulfilled r <> Rejected e) /\
            (Fulfilled r = Pending <->
             request = Pending \/
             exists response, request = Fulfilled response /\ ok response = true /\
                              json response = Pending) /\
            (forall r', Fulfilled r = Fulfilled r' ->
               ToBoolean (profile_username r') = true /\
               profile_name r' <> JNull /\ profile_name r' <> JUndefined /\
               profile_imageUrl r' <> JUndefined)) as Hsettled.
  { intros r Hnot Hinv. split; [done|]. split; [split; [done|by intros ?]|].
    by intros r' [= <-]. }
  assert (forall P : Prop, P ->
            (forall e, @Pending InstagramProfileData <> Rejected e) /\
            (@Pending InstagramProfileData = Pending <-> P) /\
            (forall r', @Pending InstagramProfileData = Fulfilled r' ->
               ToBoolean (profile_username r') = true /\
               profile_name r' <> JNull /\ profile_name r' <> JUndefined /\
               profile_imageUrl r' <> JUndefined)) as Hpending.
  { intros P HP. split; [done|]. split; [by split|]. by intros r' ?. }
  destruct request as [response|e|] eqn:Hreq; simpl.
  - destruct (ok response) eqn:Hok; simpl.
    + destruct (json response) as [data|e|] eqn:Hjson; simpl.
      * assert (~ (Fulfilled response = @Pending Response \/
                   exists r0, Fulfilled response = Fulfilled r0 /\ ok r0 = true /\
                              json r0 = Pending)) as Hnot
            by (intros [?|(? & [= <-] & _ & ?)]; congruence).
        destruct (has_graphql_user data); simpl; [|by apply Hsettled].
        destruct (ToBoolean (get (str "username") _)) eqn:Hu; simpl;
          [|by apply Hsettled].
        apply Hsettled; [done|]. simpl. split; [done|].
        split; [by destruct (get (str "full_name") _)|].
        split; [by destruct (get (str "full_name") _)|].
        destruct (get (str "profile_pic_url_hd") _); try done;
          by destruct (get (str "profile_pic_url") _).
      * apply Hsettled; [|done].
        intros [?|(? & [= <-] & _ & ?)]; congruence.
      * apply Hpending. right. by exists response.
    + apply Hsettled; [|done].
      intros [?|(? & [= <-] & ? & _)]; congruence.
  - apply Hsettled; [|done]. by intros [?|(? & ? & _)].
  - apply Hpending. by left.
Qed.

(** X18.  Whatever goes wrong on the way — the request fails, the status is not
    ok, the body is not JSON, the body lacks [graphql.user], the user has no
    truthy username — [fetchInstagramProfile] resolves to the same fallback:
    the given username as name and username, and no image. *)
Theorem fetchInstagramProfile_fallback (name : jsstring) :
  blank name = false ->
  let request := fetch (str "https://www.instagram.com/" ++ name ++ str "/?__a=1&__d=dis") in
  (exists e, request = Rejected e) \/
  (exists response,
     request = Fulfilled response /\
     (ok response = false \/
      (exists e, json response = Rejected e) \/
      exists data, json response = Fulfilled data /\
        (has_graphql_user data = false \/
         ToBoolean (get (str "username") (get (str "user") (get (str "graphql") data)))
         = false))) ->
  fetchInstagramProfile (JString name)
  = Fulfilled {| profile_name := JString name;
                 profile_username := JString name;
                 profile_imageUrl := JNull |}.
Proof.
  intros Hb request. subst request.
  unfold fetchInstagramProfile. rewrite trim_truthy, Hb. simpl.
  intros [(e & ->)|(response & -> & Hbad)]; simpl; [done|].
  destruct (ok response); simpl; [|done].
  destruct Hbad as [?|[(e & ->)|(data & -> & Hdata)]]; simpl; try done.
  destruct (has_graphql_user data); simpl; [|done].
  by destruct Hdata as [? | ->].
Qed.

(** X19.  [fetchImageAsDataUrl] resolves to [null] exactly when the request
    fails, the status is not ok, or the blob cannot be had.  Once the blob
    is there the outcome is the reader's: its string result, or a rejection
    when the reader reports an error or a result that is not a string — the
    [catch] never sees these — or no outcome if the reader never fires. *)
Theorem fetchImageAsDataUrl_outcome (imageUrl : jsstring) :
  blank imageUrl = false ->
  (fetchImageAsDataUrl (JString imageUrl) = Fulfilled None <->
   (exists e, fetch imageUrl = Rejected e) \/
   exists response, fetch imageUrl = Fulfilled response /\
                    (ok response = false \/ exists e, blob response = Rejected e)) /\
  (forall response image,
     fetch imageUrl = Fulfilled response -> ok response = true ->
     blob response = Fulfilled image ->
     fetchImageAsDataUrl (JString imageUrl)
     = match readAsDataURL image with
       | onload (Some result) => Fulfilled (Some result)
       | onload None => Rejected (Error "Failed to convert blob to data URL")
       | onerror => Rejected (Error "Error reading blob")
       | no_event => Pending
       end).
Proof.
  intros Hb. unfold fetchImageAsDataUrl. rewrite trim_truthy, Hb. simpl.
  split.
  - destruct (fetch imageUrl) as [response|e|]; simpl.
    + destruct (ok response) eqn:Hok; simpl.
      * destruct (blob response) as [image|e|] eqn:Hblob; simpl.
        -- unfold read_as_data_url.
           split; [by destruct (readAsDataURL image) as [[]| |]|].
           intros [(e & ?)|(r & [= <-] & [?|(e & ?)])]; congruence.
        -- split; [|done]. intros _. right. exists response. eauto.
        -- split; [done|].
           intros [(e & ?)|(r & [= <-] & [?|(e & ?)])]; congruence.
      * split; [|done]. intros _. right. exists response. eauto.
    + split; [|done]. intros _. left. by exists e.
    + split; [done|]. by intros [(e & ?)|(r & ? & _)].
  - intros response image Hf Hok Hblob.
    rewrite Hf. simpl. rewrite Hok. simpl. rewrite Hblob. simpl.
    unfold read_as_data_url.
    by destruct (readAsDataURL image) as [[]| |].
Qed.
End Fetch.

Lemma fetchInstagramProfile_fallback_witness :
  @fetchInstagramProfile Sample.offline (JString (str "jdoe"))
  = Fulfilled {| profile_name := JString (str "jdoe");
                 profile_username := JString (str "jdoe");
                 profile_imageUrl := JNull |}.
Proof.
  refine (@fetchInstagramProfile_fallback Sample.offline (str "jdoe") eq_refl _).
  left. by eexists.
Defined.

Lemma fetchImageAsDataUrl_outcome_witness :
  @fetchImageAsDataUrl (Sample.serving JNull {| readAsDataURL := onerror |})
    (JString (str "https://example.org/a.png"))
  = Rejected (Error "Error reading blob").
Proof.
  exact (proj2 (@fetchImageAsDataUrl_outcome
                  (Sample.serving JNull {| readAsDataURL := onerror |})
                  (str "https://example.org/a.png") eq_refl)
           _ {| readAsDataURL := onerror |} eq_refl eq_refl eq_refl).
Defined.

Lemma fetchInstagramProfile_settles_witness :
  ToBoolean (JString (str "jd")) = true.
Proof.
  exact (proj1 (proj2 (proj2 (@fetchInstagramProfile_settles
                                (Sample.serving
                                   (Sample.profile_page JNull (JString (str "jd")))
                                   {| readAsDataURL := no_event |})
                                (str "jdoe")))
                  {| profile_name := JString (str "jdoe");
                     profile_username := JString (str "jd");
                     profile_imageUrl := JNull |} eq_refl)).
Defined.

(** ** What the slot holds after a change *)

Lemma stored_list_Category (doc : list JSValue) :
  Forall (fun c => is_Category c = true) doc ->
  Forall (fun c => is_Category c = true) (stored <$> doc).
Proof.
  intros Hdoc. apply Forall_fmap. eapply Forall_impl; [exact Hdoc|].
  intros c Hc. simpl. by destruct (stored_Category c Hc).
Qed.

Section Purge.
Context `{Platform}.

(** X20.  Whatever the slot held before, after an [addProfileToCategory],
    [removeProfileFromCategory] or [deleteCategory] that returned [true] it
    holds an array of category-shaped records only, no longer than the
    document that was read: elements that were not category-shaped are gone
    from storage. *)
Theorem repository_purges_junk (categoryId : jsstring) (w w' : World) :
  (exists profile, addProfileToCategory categoryId profile w = (Ok true, w')) \/
  (exists profileId, removeProfileFromCategory categoryId profileId w = (Ok true, w')) \/
  deleteCategory categoryId w = (Ok true, w') ->
  exists items,
    localStorage w' !! STORAGE_KEY = Some (JSONText (JArray items)) /\
    Forall (fun c => is_Category c = true) items /\
    document w' = items /\
    (length items <= length (document w))%nat.
Proof.
  assert (forall doc,
            Forall (fun c => is_Category c = true) doc ->
            (length doc <= length (document w))%nat ->
            save doc w = (Ok true, w') ->
            exists items,
              localStorage w' !! STORAGE_KEY = Some (JSONText (JArray items)) /\
              Forall (fun c => is_Category c = true) items /\
              document w' = items /\
              (length items <= length (document w))%nat) as Hsave.
  { intros doc Hdoc Hlen Hs. exists (stored <$> doc).
    pose proof (save_true _ _ _ Hdoc Hs) as Hread.
    unfold save in Hs. destruct (setItem_ok _ _ _); [|done].
    injection Hs as <-. split; [|split; [|split]].
    - simpl. by rewrite lookup_insert_eq.
    - by apply stored_list_Category.
    - by rewrite <- Hread.
    - by rewrite length_fmap. }
  pose proof (document_Category w) as Hcat.
  intros [(profile & Hop)|[(profileId & Hop)|Hop]].
  - destruct (first_with_id_cases categoryId w) as [Hno|(i & c & Hi & Hc)].
    + by rewrite (addProfileToCategory_missing _ _ _ Hno) in Hop.
    + rewrite (addProfileToCategory_found _ _ _ _ _ Hi Hc) in Hop.
      eapply Hsave; [|
        |exact Hop]; [by apply with_profiles_at_Category|].
      by rewrite with_profiles_at_length.
  - destruct (first_with_id_cases categoryId w) as [Hno|(i & c & Hi & Hc)].
    + by rewrite (removeProfileFromCategory_missing _ _ _ Hno) in Hop.
    + rewrite (removeProfileFromCategory_found _ _ _ _ _ Hi Hc) in Hop. simpl in Hop.
      destruct (findIndex (id_equals profileId) _) as [[k|]|e]; try done.
      eapply Hsave; [| |exact Hop]; [by apply with_profiles_at_Category|].
      by rewrite with_profiles_at_length.
  - rewrite deleteCategory_unfold in Hop. cbv zeta in Hop.
    destruct (_ =? _)%nat; [done|].
    eapply Hsave; [| |exact Hop]; [by apply filter_Category|].
    clear. induction (document w) as [|c doc IH]; simpl; [done|].
    destruct (negb _); simpl; lia.
Qed.
End Purge.

Lemma repository_purges_junk_witness :
  exists items,
    localStorage (snd (@addProfileToCategory Sample.roomy (str "a") Sample.jane Sample.mixed))
      !! STORAGE_KEY = Some (JSONText (JArray items)) /\
    Forall (fun c => is_Category c = true) items /\
    document (snd (@addProfileToCategory Sample.roomy (str "a") Sample.jane Sample.mixed))
    = items /\
    (length items <= length (document Sample.mixed))%nat.
Proof.
  refine (@repository_purges_junk Sample.roomy (str "a") Sample.mixed _ _).
  left. exists Sample.jane. vm_compute. reflexivity.
Defined.

(** ** The two lookups, and categories made in a row *)

(** X21.  [getCurrentCategory] is [findCategoryById] applied to the [category]
    parameter of the page address whenever that parameter is not blank;
    without the parameter it answers [null]. *)
Theorem getCurrentCategory_findCategoryById (w : World) :
  match query_category w with
  | Some categoryId =>
      blank categoryId = false ->
      getCurrentCategory w = findCategoryById (JString categoryId) w
  | None => getCurrentCategory w = (Ok None, w)
  end.
Proof.
  destruct (query_category w) as [categoryId|] eqn:Hq.
  - intros Hb. unfold getCurrentCategory, findCategoryById, bind at 1,
      URLSearchParams_get_category.
    rewrite Hq, trim_truthy, Hb. destruct categoryId as [|a s]; [by simpl in Hb|].
    reflexivity.
  - unfold getCurrentCategory, bind, URLSearchParams_get_category. by rewrite Hq.
Qed.

Lemma getCurrentCategory_findCategoryById_witness :
  getCurrentCategory
    {| localStorage := localStorage Sample.tidy; setItem_calls := [];
       query_category := Some (str "b"); uuid_count := 0; heap := ∅ |}
  = findCategoryById (JString (str "b"))
      {| localStorage := localStorage Sample.tidy; setItem_calls := [];
         query_category := Some (str "b"); uuid_count := 0; heap := ∅ |}.
Proof.
  exact (getCurrentCategory_findCategoryById
           {| localStorage := localStorage Sample.tidy; setItem_calls := [];
              query_category := Some (str "b"); uuid_count := 0; heap := ∅ |} eq_refl).
Defined.

Section CreateTwice.
Context `{Platform}.

Lemma createCategory_Some (name : jsstring) (r : Ref) (elems : list JSValue)
    (w : World) :
  blank name = false -> heap w !! r = Some (HArray elems) ->
  createCategory (JString name) (Some r) w
  = (Ok {| cat_id := randomUUID (uuid_count w); cat_name := trim name;
           cat_profiles := fresh (dom (heap w)) |},
     with_heap (<[fresh (dom (heap w)) := HArray elems]> (heap w))
       (with_uuid_count (S (uuid_count w)) w)).
Proof.
  intros Hb Hr. unfold createCategory, bind at 1, ret. rewrite trim_truthy, Hb. simpl.
  unfold bind, deref, crypto_randomUUID, alloc, ret. by rewrite Hr.
Qed.

(** X22.  Two categories made one after the other from the same array of profiles
    get the two next identifiers and two arrays of their own: neither shares
    its profiles with the other or with the array given, and all three hold
    the same elements. *)
Theorem createCategory_twice (name1 name2 : jsstring) (r : Ref)
    (elems : list JSValue) (w w1 w2 : World) (c1 c2 : Category) :
  heap w !! r = Some (HArray elems) ->
  createCategory (JString name1) (Some r) w = (Ok c1, w1) ->
  createCategory (JString name2) (Some r) w1 = (Ok c2, w2) ->
  cat_id c1 = randomUUID (uuid_count w) /\
  cat_id c2 = randomUUID (S (uuid_count w)) /\
  cat_profiles c1 <> cat_profiles c2 /\
  cat_profiles c1 <> r /\ cat_profiles c2 <> r /\
  heap w2 !! cat_profiles c1 = Some (HArray elems) /\
  heap w2 !! cat_profiles c2 = Some (HArray elems) /\
  heap w2 !! r = Some (HArray elems).
Proof.
  intros Hr H1 H2.
  assert (blank name1 = false) as Hb1.
  { destruct (blank name1) eqn:Hb; [|done]. revert H1.
    unfold createCategory, bind at 1, ret. by rewrite trim_truthy, Hb. }
  rewrite (createCategory_Some _ _ _ _ Hb1 Hr) in H1. injection H1 as <- <-.
  pose proof (fresh_unallocated (heap w)) as Hf1.
  assert (fresh (dom (heap w)) <> r) as Hne1
      by (intros Heq; rewrite Heq in Hf1; congruence).
  assert (blank name2 = false) as Hb2.
  { destruct (blank name2) eqn:Hb; [|done]. revert H2.
    unfold createCategory, bind at 1, ret. by rewrite trim_truthy, Hb. }
  rewrite (createCategory_Some name2 r elems) in H2;
    [|done|simpl; by rewrite lookup_insert_ne].
  injection H2 as <- <-. simpl.
  set (h1 := <[fresh (dom (heap w)) := HArray elems]> (heap w)).
  pose proof (fresh_unallocated h1) as Hf2.
  assert (fresh (dom h1) <> fresh (dom (heap w))) as Hne12.
  { intros Heq. rewrite Heq in Hf2. subst h1. by rewrite lookup_insert_eq in Hf2. }
  assert (fresh (dom h1) <> r) as Hne2.
  { intros Heq. rewrite Heq in Hf2. subst h1.
    rewrite lookup_insert_ne in Hf2 by done. congruence. }
  split; [done|]. split; [done|]. split; [by apply not_eq_sym|].
  split; [done|]. split; [done|]. split; [|split].
  - rewrite lookup_insert_ne by done. subst h1. apply lookup_insert_eq.
  - apply lookup_insert_eq.
  - rewrite lookup_insert_ne by done. subst h1. by rewrite lookup_insert_ne.
Qed.
End CreateTwice.

Lemma createCategory_twice_witness :
  exists c1 c2 w1 w2,
    @createCategory Sample.roomy (JString (str "Friends")) (Some 1%positive)
      (with_heap {[ 1%positive := HArray [Sample.jane] ]} (Sample.world_with ∅))
    = (Ok c1, w1) /\
    @createCategory Sample.roomy (JString (str "Work")) (Some 1%positive) w1
    = (Ok c2, w2) /\
    cat_profiles c1 <> cat_profiles c2.
Proof.
  do 4 eexists. split; [vm_compute; reflexivity|]. split; [vm_compute; reflexivity|].
  refine (proj1 (proj2 (proj2 (@createCategory_twice Sample.roomy (str "Friends")
                                 (str "Work") 1%positive [Sample.jane]
                                 (with_heap {[ 1%positive := HArray [Sample.jane] ]}
                                    (Sample.world_with ∅))
                                 _ _ _ _ _ _ _)))).
  - vm_compute. reflexivity.
  - vm_compute. reflexivity.
  - vm_compute. reflexivity.
Defined.
